(** * SCJN Extractor Ultimate: hash-chain ledger and download registry

    A shallow embedding of the ledger code of
    [scripts/SCJN_Extractor_Ultimate.user.js] (objects [Crypto],
    [Blockchain], [Descargador], [ControladorPrincipal]) and of the
    download registry of [scripts/SCJN_Mass_Downloader_GDrive.user.js],
    together with the primality test written out in
    [ESTRATEGIA_NUMEROS_PRIMOS.md].

    Conventions of the embedding:
    - a JavaScript string is the list of its UTF-16 code units, each a [Z];
      [str.charCodeAt(i)] is the i-th element and [str.length] the length
      of the list;
    - the numbers that occur in the ledger ([index], [nonce], sizes, clock
      readings) are integers far below 2^53 and are modelled by [Z];
      the 32-bit coercions of the bit operators are written out;
    - a count handed to [String.prototype.repeat] or [padStart] is a [nat];
    - [new Date().toISOString()], [Date.now()] and the outcome of a network
      request are inputs of the functions that read them;
    - the global objects [CONFIG] and [ESTADO] are passed explicitly. *)

From Stdlib Require Import ZArith Zdivisibility.
From stdpp Require Import base list strings gmap.

Local Open Scope Z_scope.

(** ** JavaScript strings and numbers *)

Module Js.

Definition cadena : Type := list Z.

(** Code units of a literal whose characters are all below U+0100. *)
Definition lit (s : string) : cadena :=
  (fun c => Z.of_N (Ascii.N_of_ascii c)) <$> String.list_ascii_of_string s.

(** [ToInt32]: wrap an integer into the signed 32-bit range. *)
Definition toInt32 (x : Z) : Z := (x + 2 ^ 31) mod 2 ^ 32 - 2 ^ 31.

(** [a << n] *)
Definition shl (a n : Z) : Z := toInt32 (Z.shiftl (toInt32 a) (n mod 32)).

(** [a & b] *)
Definition band (a b : Z) : Z := Z.land (toInt32 a) (toInt32 b).

(** One digit of [Number.prototype.toString(radix)]: 0-9 then a-z. *)
Definition digito (d : Z) : Z := if d <? 10 then 48 + d else 87 + d.

Fixpoint digitos (base : Z) (fuel : nat) (n : Z) : cadena :=
  match fuel with
  | O => []
  | S fuel' =>
      if n <? base then [digito n]
      else digitos base fuel' (n / base) ++ [digito (n mod base)]
  end.

(** [n.toString(radix)] for an integer [n]; a negative number prints a
    minus sign (code unit 45) before the digits of its absolute value. *)
Definition toString (base : Z) (n : Z) : cadena :=
  let a := Z.abs n in
  let ds := digitos base (S (Z.to_nat (Z.log2 a))) a in
  if n <? 0 then 45 :: ds else ds.

(** ['c'.repeat(n)] for a one-character string. *)
Definition repeat (c : Z) (n : nat) : cadena := replicate n c.

(** [s.padStart(n, 'c')] for a one-character filler. *)
Definition padStart (n : nat) (c : Z) (s : cadena) : cadena :=
  replicate (n - length s) c ++ s.

(** [s.startsWith(p)] *)
Fixpoint startsWith (s p : cadena) {struct p} : bool :=
  match p, s with
  | [], _ => true
  | _ :: _, [] => false
  | a :: p', b :: s' => (a =? b) && startsWith s' p'
  end.

End Js.

(** A hexadecimal digit in lower case: [0-9] or [a-f]. *)
Definition es_hex (c : Z) : Prop := 48 <= c <= 57 \/ 97 <= c <= 102.

(** ** Hashing of block strings ([Blockchain.sha256Sync]) *)

(** The loop body [hash = ((hash << 5) - hash) + char; hash = hash & hash]. *)
Definition sha256Sync_paso (hash char : Z) : Z :=
  let hash := Js.shl hash 5 - hash + char in
  Js.band hash hash.

Definition sha256Sync_acumulador (str : Js.cadena) : Z :=
  fold_left sha256Sync_paso str 0.

Definition sha256Sync (str : Js.cadena) : Js.cadena :=
  Js.padStart 64 48 (Js.toString 16 (Z.abs (sha256Sync_acumulador str))).

(** ** JSON values and [JSON.stringify] *)

Module JSON.

(** The values that reach [JSON.stringify] in the ledger code. Numbers are
    the integers the code stores (sizes, page numbers, years, counters). *)
#[warnings="-register-all"] Inductive valor : Type :=
  | Undefined
  | Null
  | Bool (b : bool)
  | Num (n : Z)
  | Str (s : Js.cadena)
  | Arr (elementos : list valor)
  | Obj (propiedades : list (Js.cadena * valor)).

Definition es_undefined (v : valor) : bool :=
  match v with Undefined => true | _ => false end.

(** [\uXXXX] with four lower-case hexadecimal digits. *)
Definition escapeUnicode (c : Z) : Js.cadena :=
  [92; 117] ++ Js.padStart 4 48 (Js.toString 16 c).

Definition es_sustituto_alto (c : Z) : bool := (55296 <=? c) && (c <=? 56319).
Definition es_sustituto_bajo (c : Z) : bool := (56320 <=? c) && (c <=? 57343).

(** Escape of one code unit that is not part of a surrogate pair. *)
Definition escapar (c : Z) : Js.cadena :=
  if c =? 8 then [92; 98]
  else if c =? 9 then [92; 116]
  else if c =? 10 then [92; 110]
  else if c =? 12 then [92; 102]
  else if c =? 13 then [92; 114]
  else if c =? 34 then [92; 34]
  else if c =? 92 then [92; 92]
  else if (c <? 32) || es_sustituto_alto c || es_sustituto_bajo c
       then escapeUnicode c
  else [c].

(** Body of [QuoteJSONString]: a well-formed surrogate pair is kept, a lone
    surrogate and a control character are escaped. *)
Fixpoint escaparCadena (s : Js.cadena) : Js.cadena :=
  match s with
  | [] => []
  | c :: s' =>
      if es_sustituto_alto c then
        match s' with
        | d :: s'' =>
            if es_sustituto_bajo d then c :: d :: escaparCadena s''
            else escapar c ++ escaparCadena s'
        | [] => escapar c
        end
      else escapar c ++ escaparCadena s'
  end.

Definition citar (s : Js.cadena) : Js.cadena := [34] ++ escaparCadena s ++ [34].

(** [partes.join(',')] *)
Fixpoint unir (partes : list Js.cadena) : Js.cadena :=
  match partes with
  | [] => []
  | [p] => p
  | p :: resto => p ++ [44] ++ unir resto
  end.

(** [SerializeJSONProperty] without indentation. An [undefined] property of
    an object is left out; an [undefined] element of an array prints as
    [null]. *)
Fixpoint serializar (v : valor) : Js.cadena :=
  match v with
  | Undefined => Js.lit "null"
  | Null => Js.lit "null"
  | Bool true => Js.lit "true"
  | Bool false => Js.lit "false"
  | Num n => Js.toString 10 n
  | Str s => citar s
  | Arr elementos => [91] ++ unir (map serializar elementos) ++ [93]
  | Obj propiedades =>
      let fix miembros (ps : list (Js.cadena * valor)) : list Js.cadena :=
        match ps with
        | [] => []
        | (k, Undefined) :: ps' => miembros ps'
        | (k, x) :: ps' => (citar k ++ [58] ++ serializar x) :: miembros ps'
        end in
      [123] ++ unir (miembros propiedades) ++ [125]
  end.

(** [JSON.stringify(v)]: [undefined] at the top level gives [undefined]. *)
Definition stringify (v : valor) : option Js.cadena :=
  if es_undefined v then None else Some (serializar v).

(** [o[k]] on an object value: the first binding of [k], else [undefined]. *)
Fixpoint propiedad (k : Js.cadena) (ps : list (Js.cadena * valor)) : valor :=
  match ps with
  | [] => Undefined
  | (k', x) :: ps' => if decide (k = k') then x else propiedad k ps'
  end.

End JSON.


(** ** Configuration and global state ([CONFIG], [ESTADO]) *)

(** The fields of [CONFIG] the ledger and the downloader read. The object is
    handed out by [SCJNExtractor.obtenerConfig], so its fields are host
    settings; [CONFIG] below holds the values the script ships with. *)
Record Config : Type := {
  version : Js.cadena;
  año : Z;
  dificultadProofOfWork : nat;
  usarBlockchain : bool;
  carpetaDescarga : Js.cadena
}.

Definition CONFIG : Config := {|
  version := Js.lit "2.0.0";
  año := 2025;
  dificultadProofOfWork := 4;
  usarBlockchain := true;
  carpetaDescarga := Js.lit "VARIOS_2025_SCJN"
|}.

(** A block literal as [crearBloqueGenesis] and [agregarBloque] build it,
    before the [hash] property is assigned. [difficulty] is the count given
    to ['0'.repeat]. *)
Record Cabecera : Type := {
  index : Z;
  timestamp : Js.cadena;
  data : JSON.valor;
  previousHash : Js.cadena;
  nonce : Z;
  difficulty : nat
}.

(** A block of the chain: the literal plus its [hash] property. *)
Record Bloque : Type := {
  cabecera :> Cabecera;
  hash : Js.cadena
}.

(** [bloque.nonce = n] *)
Definition con_nonce (b : Cabecera) (n : Z) : Cabecera :=
  {| index := index b; timestamp := timestamp b; data := data b;
     previousHash := previousHash b; nonce := n; difficulty := difficulty b |}.

(** [bloque.difficulty = d] *)
Definition con_difficulty (b : Cabecera) (d : nat) : Cabecera :=
  {| index := index b; timestamp := timestamp b; data := data b;
     previousHash := previousHash b; nonce := nonce b; difficulty := d |}.

(** The own properties of a stored block, in creation order, as
    [exportarBlockchain] hands them to [JSON.stringify]. *)
Definition propiedades_bloque (b : Bloque) : list (Js.cadena * JSON.valor) :=
  [ (Js.lit "index", JSON.Num (index b));
    (Js.lit "timestamp", JSON.Str (timestamp b));
    (Js.lit "data", data b);
    (Js.lit "previousHash", JSON.Str (previousHash b));
    (Js.lit "nonce", JSON.Num (nonce b));
    (Js.lit "difficulty", JSON.Num (Z.of_nat (difficulty b)));
    (Js.lit "hash", JSON.Str (hash b)) ].

Record EntradaRegistro : Type := {
  reg_hash : Js.cadena;
  reg_tamaño : Z;
  reg_url : Js.cadena;
  reg_expediente : Js.cadena;
  reg_timestamp : Js.cadena
}.

Record Stats : Type := {
  tamañoTotalDescargado : Z;
  hashesGenerados : Z;
  bloquesCreados : Z
}.

(** The part of [ESTADO] that the ledger and the downloader touch.
    [hashRegistry] is the object used as a map from file name to entry. *)
Record Estado : Type := {
  blockchain : list Bloque;
  hashRegistry : gmap (list Z) EntradaRegistro;
  auditLedger : list JSON.valor;
  errores : list JSON.valor;
  archivosDescargados : Z;
  stats : Stats
}.

Definition ESTADO_inicial : Estado := {|
  blockchain := [];
  hashRegistry := ∅;
  auditLedger := [];
  errores := [];
  archivosDescargados := 0;
  stats := {| tamañoTotalDescargado := 0; hashesGenerados := 0; bloquesCreados := 0 |}
|}.

(** The updates of [ESTADO] the code performs. *)
Definition push_bloque (b : Bloque) (st : Estado) : Estado :=
  {| blockchain := blockchain st ++ [b];
     hashRegistry := hashRegistry st;
     auditLedger := auditLedger st;
     errores := errores st;
     archivosDescargados := archivosDescargados st;
     stats := stats st |}.

(** [ESTADO.stats.bloquesCreados++] *)
Definition contar_bloque (st : Estado) : Estado :=
  {| blockchain := blockchain st;
     hashRegistry := hashRegistry st;
     auditLedger := auditLedger st;
     errores := errores st;
     archivosDescargados := archivosDescargados st;
     stats := {| tamañoTotalDescargado := tamañoTotalDescargado (stats st);
                 hashesGenerados := hashesGenerados (stats st);
                 bloquesCreados := bloquesCreados (stats st) + 1 |} |}.

(** [ESTADO.hashRegistry[nombre] = entrada] *)
Definition registrar_hash (nombre : Js.cadena) (entrada : EntradaRegistro)
    (st : Estado) : Estado :=
  {| blockchain := blockchain st;
     hashRegistry := <[nombre := entrada]> (hashRegistry st);
     auditLedger := auditLedger st;
     errores := errores st;
     archivosDescargados := archivosDescargados st;
     stats := stats st |}.

(** [ESTADO.archivosDescargados++], [tamañoTotalDescargado += tamaño],
    [hashesGenerados++] *)
Definition contar_descarga (tamaño : Z) (st : Estado) : Estado :=
  {| blockchain := blockchain st;
     hashRegistry := hashRegistry st;
     auditLedger := auditLedger st;
     errores := errores st;
     archivosDescargados := archivosDescargados st + 1;
     stats := {| tamañoTotalDescargado := tamañoTotalDescargado (stats st) + tamaño;
                 hashesGenerados := hashesGenerados (stats st) + 1;
                 bloquesCreados := bloquesCreados (stats st) |} |}.

(** [ESTADO.auditLedger.push(evento)] *)
Definition push_auditoria (evento : JSON.valor) (st : Estado) : Estado :=
  {| blockchain := blockchain st;
     hashRegistry := hashRegistry st;
     auditLedger := auditLedger st ++ [evento];
     errores := errores st;
     archivosDescargados := archivosDescargados st;
     stats := stats st |}.

(** [ESTADO.errores.push(error)] *)
Definition push_error (error : JSON.valor) (st : Estado) : Estado :=
  {| blockchain := blockchain st;
     hashRegistry := hashRegistry st;
     auditLedger := auditLedger st;
     errores := errores st ++ [error];
     archivosDescargados := archivosDescargados st;
     stats := stats st |}.

(** ** The ledger ([Blockchain]) *)

Module Blockchain.

(** [JSON.stringify({index, timestamp, data, previousHash, nonce})] *)
Definition bloqueString (bloque : Cabecera) : Js.cadena :=
  JSON.serializar (JSON.Obj
    [ (Js.lit "index", JSON.Num (index bloque));
      (Js.lit "timestamp", JSON.Str (timestamp bloque));
      (Js.lit "data", data bloque);
      (Js.lit "previousHash", JSON.Str (previousHash bloque));
      (Js.lit "nonce", JSON.Num (nonce bloque)) ]).

Definition calcularHashBloque (bloque : Cabecera) : Js.cadena :=
  sha256Sync (bloqueString bloque).

(** The payload of the genesis block. The accented letters are written as
    code units: 243 in [extracción], 201 in [GÉNESIS], 241 in [año]. *)
Definition datosGenesis (cfg : Config) : JSON.valor :=
  JSON.Obj
    [ (Js.lit "tipo", JSON.Str (Js.lit "GENESIS"));
      (Js.lit "descripcion",
         JSON.Str (Js.lit "Inicio de extracci" ++ [243] ++ Js.lit "n SCJN 2025"));
      (Js.lit "arquitecto", JSON.Str ([71; 201] ++ Js.lit "NESIS"));
      (Js.lit "agente",
         JSON.Str (Js.lit "SCJN Extractor Ultimate v" ++ version cfg));
      ([97; 241; 111], JSON.Num (año cfg)) ].

(** [ahora] is the value of [new Date().toISOString()]. *)
Definition crearBloqueGenesis (cfg : Config) (ahora : Js.cadena) : Bloque :=
  let bloque := {|
    index := 0;
    timestamp := ahora;
    data := datosGenesis cfg;
    previousHash := Js.repeat 48 64;
    nonce := 0;
    difficulty := dificultadProofOfWork cfg
  |} in
  {| cabecera := bloque; hash := calcularHashBloque bloque |}.

Definition maxIteraciones : Z := 1000000.

(** The [while (nonce < maxIteraciones)] loop. [quedan] is the number of
    iterations left, [maxIteraciones - nonce]; [bloque] carries the nonce
    assigned so far and [hash] the last hash computed. The second component
    lists, in order, the nonces for which a hash was computed. *)
Fixpoint minar (quedan : nat) (prefix : Js.cadena) (bloque : Cabecera)
    (nonce : Z) (hash : Js.cadena) : Bloque * list Z :=
  match quedan with
  | O => ({| cabecera := bloque; hash := hash |}, [])
  | S quedan' =>
      let bloque := con_nonce bloque nonce in
      let hash := calcularHashBloque bloque in
      if Js.startsWith hash prefix then
        ({| cabecera := bloque; hash := hash |}, [nonce])
      else
        let '(final, probados) := minar quedan' prefix bloque (nonce + 1) hash in
        (final, nonce :: probados)
  end.

Definition calcularProofOfWork_traza (bloque : Cabecera) : Bloque * list Z :=
  let prefix := Js.repeat 48 (difficulty bloque) in
  minar (Z.to_nat maxIteraciones) prefix bloque 0 [].

Definition calcularProofOfWork (bloque : Cabecera) : Bloque :=
  fst (calcularProofOfWork_traza bloque).

(** The nonces tried while mining [bloque]. *)
Definition nonces_probados (bloque : Cabecera) : list Z :=
  snd (calcularProofOfWork_traza bloque).

(** The search runs out: no nonce below [maxIteraciones] gives a hash that
    starts with the prefix of [bloque]. *)
Definition agotado (bloque : Cabecera) : Prop :=
  forall n, 0 <= n < maxIteraciones ->
    Js.startsWith (calcularHashBloque (con_nonce bloque n))
                  (Js.repeat 48 (difficulty bloque)) = false.

(** [bloque.pow_incomplete] on a stored block. *)
Definition pow_incomplete (b : Bloque) : JSON.valor :=
  JSON.propiedad (Js.lit "pow_incomplete") (propiedades_bloque b).

(** What a call can throw. *)
Inductive Excepcion : Type :=
  | TypeError.

(** [blockchain[blockchain.length - 1]], [undefined] on an empty array. *)
Definition ultimo (blockchain : list Bloque) : option Bloque :=
  blockchain !! (length blockchain - 1)%nat.

(** The literal [nuevoBloque]; reading [ultimoBloque.hash] throws when the
    chain is empty. *)
Definition nuevoBloque (cfg : Config) (ahora : Js.cadena) (data : JSON.valor)
    (blockchain : list Bloque) : Excepcion + Cabecera :=
  match ultimo blockchain with
  | None => inl TypeError
  | Some ultimoBloque =>
      inr {| index := Z.of_nat (length blockchain);
             timestamp := ahora;
             data := data;
             previousHash := hash ultimoBloque;
             nonce := 0;
             difficulty := dificultadProofOfWork cfg |}
  end.

Definition agregarBloque (cfg : Config) (ahora : Js.cadena) (data : JSON.valor)
    (st : Estado) : Excepcion + (Bloque * Estado) :=
  match nuevoBloque cfg ahora data (blockchain st) with
  | inl e => inl e
  | inr nuevo =>
      let bloqueConHash := calcularProofOfWork nuevo in
      inr (bloqueConHash, contar_bloque (push_bloque bloqueConHash st))
  end.

(** The object [validarBlockchain] returns, or the exception it throws. *)
Inductive Validacion : Type :=
  | Valida (mensaje : Js.cadena) (totalBloques : nat)
  | Invalida (error : Js.cadena) (bloqueIndex : nat)
  | Lanza (e : Excepcion).

Definition mensajeError (i : nat) (texto : Js.cadena) : Js.cadena :=
  Js.lit "Bloque " ++ Js.toString 10 (Z.of_nat i) ++ texto.

Definition error_previousHash (i : nat) : Validacion :=
  Invalida (mensajeError i (Js.lit ": previousHash no coincide")) i.
Definition error_hash (i : nat) : Validacion :=
  Invalida (mensajeError i (Js.lit ": hash alterado")) i.
Definition error_pow (i : nat) : Validacion :=
  Invalida (mensajeError i (Js.lit ": proof-of-work inv" ++ [225] ++ Js.lit "lido")) i.

(** The three checks of the loop body on [blockchain[i]] and
    [blockchain[i - 1]], in the order of the code: the object returned by the
    first check that fails, [None] when the body falls through. *)
Definition comprobarBloque (i : nat) (bloqueActual bloqueAnterior : Bloque)
    : option Validacion :=
  if decide (previousHash bloqueActual ≠ hash bloqueAnterior) then
    Some (error_previousHash i)
  else
    let hashRecalculado := calcularHashBloque bloqueActual in
    if decide (hash bloqueActual ≠ hashRecalculado) then Some (error_hash i)
    else
      let prefix := Js.repeat 48 (difficulty bloqueActual) in
      if negb (Js.startsWith (hash bloqueActual) prefix) then Some (error_pow i)
      else None.

(** The [for (let i = 1; i < blockchain.length; i++)] loop; [quedan] is
    [blockchain.length - i]. Reading a property of a missing element
    throws. *)
Fixpoint validarDesde (blockchain : list Bloque) (quedan i : nat) : Validacion :=
  match quedan with
  | O => Valida (Js.lit "Blockchain v" ++ [225] ++ Js.lit "lida e inmutable")
                (length blockchain)
  | S quedan' =>
      match (blockchain !! i : option Bloque),
            (blockchain !! (i - 1)%nat : option Bloque) with
      | Some bloqueActual, Some bloqueAnterior =>
          match comprobarBloque i bloqueActual bloqueAnterior with
          | Some invalida => invalida
          | None => validarDesde blockchain quedan' (i + 1)%nat
          end
      | _, _ => Lanza TypeError
      end
  end.

Definition validarBlockchain (blockchain : list Bloque) : Validacion :=
  validarDesde blockchain (length blockchain - 1)%nat 1%nat.

(** The block indices a validation result names. *)
Definition bloques_reportados (v : Validacion) : list nat :=
  match v with
  | Invalida _ i => [i]
  | _ => []
  end.

Definition es_valida (v : Validacion) : bool :=
  match v with
  | Valida _ _ => true
  | _ => false
  end.

End Blockchain.

(** ** Start of a run ([ControladorPrincipal.iniciar]) *)

Module ControladorPrincipal.

(** The ledger step of [iniciar]: the genesis block is created and pushed
    when the chain is empty. *)
Definition iniciar_blockchain (cfg : Config) (ahora : Js.cadena) (st : Estado) : Estado :=
  if (length (blockchain st) =? 0)%nat then
    let bloqueGenesis := Blockchain.crearBloqueGenesis cfg ahora in
    push_bloque bloqueGenesis st
  else st.

End ControladorPrincipal.

(** ** Document download ([Descargador]) *)

Record Documento : Type := {
  url : Js.cadena;
  texto : Js.cadena;
  tipo : Js.cadena
}.

Record Expediente : Type := {
  numero : Js.cadena;
  hashID : Js.cadena
}.

(** The callback [GM_xmlhttpRequest] ends with: [onload] with the bytes of
    the blob, [onerror] with the text of the error, or [ontimeout]. *)
Inductive Respuesta : Type :=
  | Onload (blob : list Z)
  | Onerror (error : Js.cadena)
  | Ontimeout.

(** How the promise of a download settles. *)
Inductive Resultado : Type :=
  | Resuelve (nombreArchivo hash : Js.cadena) (tamaño : Z)
  | RechazaExcepcion (e : Blockchain.Excepcion)
  | RechazaError (error : Js.cadena)
  | RechazaTimeout.

(** The clock readings of one download: [Date.now()] at its start and the
    three [new Date().toISOString()] of the registry entry, of the block and
    of the audit event (the last also stamps a recorded error). *)
Record Reloj : Type := {
  date_now : Z;
  iso_registro : Js.cadena;
  iso_bloque : Js.cadena;
  iso_auditoria : Js.cadena
}.

Module Descargador.

(** The class [\s] of a regular expression. *)
Definition es_espacio (c : Z) : bool :=
  ((9 <=? c) && (c <=? 13)) || (c =? 32) || (c =? 160) || (c =? 5760)
  || ((8192 <=? c) && (c <=? 8202)) || (c =? 8232) || (c =? 8233)
  || (c =? 8239) || (c =? 8287) || (c =? 12288) || (c =? 65279).

(** [s.replace(/[\/\s]/g, '_')] *)
Definition normalizarNumero (s : Js.cadena) : Js.cadena :=
  (fun c => if (c =? 47) || es_espacio c then 95 else c) <$> s.

(** [s.replace(/\s+/g, '_')]: each maximal run of white space becomes one
    underscore; [enEspacio] tells that the previous unit was white space. *)
Fixpoint colapsarEspacios (enEspacio : bool) (s : Js.cadena) : Js.cadena :=
  match s with
  | [] => []
  | c :: s' =>
      if es_espacio c then
        if enEspacio then colapsarEspacios true s'
        else 95 :: colapsarEspacios true s'
      else c :: colapsarEspacios false s'
  end.

(** [s.split(sep).pop()]: what follows the last [sep]; [actual] is the
    segment read so far. *)
Fixpoint ultimoSegmento (sep : Z) (actual s : Js.cadena) : Js.cadena :=
  match s with
  | [] => actual
  | c :: s' =>
      if c =? sep then ultimoSegmento sep [] s'
      else ultimoSegmento sep (actual ++ [c]) s'
  end.

(** [s.split(sep)[0]]: what precedes the first [sep]. *)
Fixpoint primerSegmento (sep : Z) (s : Js.cadena) : Js.cadena :=
  match s with
  | [] => []
  | c :: s' => if c =? sep then [] else c :: primerSegmento sep s'
  end.

Definition extension (url : Js.cadena) : Js.cadena :=
  match primerSegmento 63 (ultimoSegmento 46 [] url) with
  | [] => Js.lit "pdf"
  | e => e
  end.

Definition generarNombreArchivo (documento : Documento) (expediente : Expediente)
    (timestamp : Z) : Js.cadena :=
  let expedienteNormalizado := normalizarNumero (numero expediente) in
  let tipoDocumento := colapsarEspacios false (tipo documento) in
  expedienteNormalizado ++ [95] ++ tipoDocumento ++ [95]
    ++ Js.toString 10 timestamp ++ [46] ++ extension (url documento).

Section Descarga.

(** [Crypto.sha256File]: the SHA-256 digest of the bytes of a blob, in
    hexadecimal, as [crypto.subtle.digest] computes it. *)
Variable sha256File : list Z -> Js.cadena.

Definition entradaRegistro (documento : Documento) (expediente : Expediente)
    (hash : Js.cadena) (tamaño : Z) (ahora : Js.cadena) : EntradaRegistro :=
  {| reg_hash := hash; reg_tamaño := tamaño; reg_url := url documento;
     reg_expediente := numero expediente; reg_timestamp := ahora |}.

Definition datosDescarga (documento : Documento) (expediente : Expediente)
    (nombreArchivo hash : Js.cadena) (tamaño : Z) : JSON.valor :=
  JSON.Obj
    [ (Js.lit "tipo", JSON.Str (Js.lit "DOCUMENTO_DESCARGADO"));
      (Js.lit "expediente", JSON.Str (numero expediente));
      (Js.lit "nombreArchivo", JSON.Str nombreArchivo);
      (Js.lit "hash", JSON.Str hash);
      ([116; 97; 109; 97; 241; 111], JSON.Num tamaño);
      (Js.lit "url", JSON.Str (url documento)) ].

Definition eventoDescarga (expediente : Expediente)
    (nombreArchivo hash : Js.cadena) (tamaño : Z) (ahora : Js.cadena) : JSON.valor :=
  JSON.Obj
    [ (Js.lit "timestamp", JSON.Str ahora);
      (Js.lit "accion", JSON.Str (Js.lit "DESCARGA_DOCUMENTO"));
      (Js.lit "expediente", JSON.Str (numero expediente));
      (Js.lit "archivo", JSON.Str nombreArchivo);
      (Js.lit "hash", JSON.Str hash);
      ([116; 97; 109; 97; 241; 111], JSON.Num tamaño) ].

Definition errorDescarga (tipoError : Js.cadena) (documento : Documento)
    (error ahora : Js.cadena) : JSON.valor :=
  JSON.Obj
    [ (Js.lit "tipo", JSON.Str tipoError);
      (Js.lit "url", JSON.Str (url documento));
      (Js.lit "error", JSON.Str error);
      (Js.lit "timestamp", JSON.Str ahora) ].

(** One call of [descargarDocumento] up to the settling of its promise.
    [GM_download] writes a file outside [ESTADO] and is left out. An
    exception of [agregarBloque] is caught by the [try] of [onload] and
    rejects the promise, the updates made before it staying in place. *)
Definition descargarDocumento (cfg : Config) (reloj : Reloj)
    (documento : Documento) (expediente : Expediente) (respuesta : Respuesta)
    (st : Estado) : Estado * Resultado :=
  let timestamp := date_now reloj in
  let nombreArchivo := generarNombreArchivo documento expediente timestamp in
  match respuesta with
  | Onload blob =>
      let tamaño := Z.of_nat (length blob) in
      let hash := sha256File blob in
      let st := registrar_hash nombreArchivo
                  (entradaRegistro documento expediente hash tamaño (iso_registro reloj)) st in
      let st := contar_descarga tamaño st in
      let registrado :=
        if usarBlockchain cfg then
          match Blockchain.agregarBloque cfg (iso_bloque reloj)
                  (datosDescarga documento expediente nombreArchivo hash tamaño) st with
          | inl e => inl e
          | inr (_, st') => inr st'
          end
        else inr st in
      match registrado with
      | inl e => (st, RechazaExcepcion e)
      | inr st =>
          (push_auditoria
             (eventoDescarga expediente nombreArchivo hash tamaño (iso_auditoria reloj)) st,
           Resuelve nombreArchivo hash tamaño)
      end
  | Onerror error =>
      (push_error (errorDescarga (Js.lit "DESCARGA_DOCUMENTO") documento error
                     (iso_auditoria reloj)) st,
       RechazaError error)
  | Ontimeout =>
      (push_error (errorDescarga (Js.lit "DESCARGA_TIMEOUT") documento
                     (Js.lit "Timeout en descarga") (iso_auditoria reloj)) st,
       RechazaTimeout)
  end.

End Descarga.

End Descargador.

(** ** Download registry of the mass downloader
    ([scripts/SCJN_Mass_Downloader_GDrive.user.js]) *)

Module MassDownloader.

Record Archivo : Type := {
  arch_nombreArchivo : Js.cadena;
  arch_hash : Js.cadena;
  arch_tamaño : Z;
  arch_expediente : Js.cadena;
  arch_timestamp : Js.cadena
}.

(** The registry, the list of downloads and the counters of that script's
    [ESTADO]; the bookkeeping of the upload is left out. *)
Record Estado : Type := {
  hashRegistry : gmap (list Z) EntradaRegistro;
  archivosDescargados : list Archivo;
  totalArchivos : Z;
  tamañoTotal : Z
}.

(** Outcome of the optional upload: not attempted, done, or thrown. *)
Inductive Subida : Type :=
  | SinSubida
  | Subido
  | SubidaFalla (error : Js.cadena).

Section Descarga.

(** [Crypto.sha256] on a blob: the SHA-256 digest of its bytes. *)
Variable sha256 : list Z -> Js.cadena.

(** The [onload] handler of [descargarDocumento]: [ahora] is [Date.now()]
    read by [generarNombreArchivo]; the result tells whether the promise
    resolved. *)
Definition onload (ahora : Z) (iso_registro iso_archivo : Js.cadena)
    (documento : Documento) (expediente : Expediente) (blob : list Z)
    (subida : Subida) (st : Estado) : Estado * bool :=
  let nombreArchivo := Descargador.generarNombreArchivo documento expediente ahora in
  let hash := sha256 blob in
  let tamaño := Z.of_nat (length blob) in
  let registro :=
    <[nombreArchivo := {| reg_hash := hash; reg_tamaño := tamaño;
                          reg_url := url documento;
                          reg_expediente := numero expediente;
                          reg_timestamp := iso_registro |}]> (hashRegistry st) in
  match subida with
  | SubidaFalla _ =>
      ({| hashRegistry := registro;
          archivosDescargados := archivosDescargados st;
          totalArchivos := totalArchivos st;
          tamañoTotal := tamañoTotal st |}, false)
  | _ =>
      ({| hashRegistry := registro;
          archivosDescargados :=
            archivosDescargados st
            ++ [ {| arch_nombreArchivo := nombreArchivo; arch_hash := hash;
                    arch_tamaño := tamaño; arch_expediente := numero expediente;
                    arch_timestamp := iso_archivo |} ];
          totalArchivos := totalArchivos st + 1;
          tamañoTotal := tamañoTotal st + tamaño |}, true)
  end.

End Descarga.

End MassDownloader.

(** ** Primality test ([ESTRATEGIA_NUMEROS_PRIMOS.md]) *)

Module Primos.

(** [while d % 2 == 0: r += 1; d //= 2] *)
Fixpoint descomponer (fuel : nat) (r d : Z) : Z * Z :=
  match fuel with
  | O => (r, d)
  | S fuel' =>
      if d mod 2 =? 0 then descomponer fuel' (r + 1) (d / 2) else (r, d)
  end.

(** The inner [for _ in range(r - 1)] with its [else: return False]:
    [true] when the loop breaks. *)
Fixpoint cuadrados (veces : nat) (x n : Z) : bool :=
  match veces with
  | O => false
  | S veces' =>
      let x := x ^ 2 mod n in
      if x =? n - 1 then true else cuadrados veces' x n
  end.

(** One round with the drawn base [a]: [false] is [return False]. *)
Definition ronda (n r d a : Z) : bool :=
  let x := a ^ d mod n in
  if (x =? 1) || (x =? n - 1) then true
  else cuadrados (Z.to_nat (r - 1)) x n.

(** [is_prime_miller_rabin(n, k)]; [testigos] are the [k] values that
    [random.randrange(2, n - 1)] returns, in order. *)
Definition is_prime_miller_rabin (n : Z) (testigos : list Z) : bool :=
  if n <? 2 then false
  else if (n =? 2) || (n =? 3) then true
  else if n mod 2 =? 0 then false
  else
    let '(r, d) := descomponer (S (Z.to_nat (Z.log2 n))) 0 (n - 1) in
    forallb (ronda n r d) testigos.

End Primos.

(** ** Notions used in the statements *)

(** What the loop body of [validarBlockchain] finds at position [i]: the
    object it would return there, [None] when block [i] passes the three
    checks (or [i] is not a position of the chain). *)
Definition veredicto (blockchain : list Bloque) (i : nat) : option Blockchain.Validacion :=
  match (blockchain !! i : option Bloque),
        (blockchain !! (i - 1)%nat : option Bloque) with
  | Some bloqueActual, Some bloqueAnterior =>
      Blockchain.comprobarBloque i bloqueActual bloqueAnterior
  | _, _ => None
  end.

(** Block [i] (with [1 <= i]) fails one of the checks of the validation. *)
Definition bloque_malo (blockchain : list Bloque) (i : nat) : Prop :=
  (1 <= i)%nat /\ is_Some (veredicto blockchain i).

(** The states of a run: [iniciar] on a state whose chain is empty, then
    any number of calls of [agregarBloque] that return. The configuration
    and the clock are free at every step. *)
Inductive alcanzable : Estado -> Prop :=
  | alcanzable_iniciar cfg ahora st :
      blockchain st = [] ->
      alcanzable (ControladorPrincipal.iniciar_blockchain cfg ahora st)
  | alcanzable_agregar cfg ahora data st bloque st' :
      alcanzable st ->
      Blockchain.agregarBloque cfg ahora data st = inr (bloque, st') ->
      alcanzable st'.

(** Strictly increasing block identifiers along a chain. *)
Definition indices_crecientes (blockchain : list Bloque) : Prop :=
  forall i j (bi bj : Bloque),
    (i < j)%nat -> blockchain !! i = Some bi -> blockchain !! j = Some bj ->
    index bi < index bj.

(** ** Sample inputs *)

Module Ejemplos.

Definition ahora : Js.cadena := Js.lit "2025-01-01T00:00:00.000Z".

(** A fresh run after [iniciar]: the chain holds the genesis block. *)
Definition ESTADO_genesis : Estado :=
  ControladorPrincipal.iniciar_blockchain CONFIG ahora ESTADO_inicial.

Definition datos (expediente : string) : JSON.valor :=
  JSON.Obj [ (Js.lit "tipo", JSON.Str (Js.lit "EXPEDIENTE_EXTRAIDO"));
             (Js.lit "expediente", JSON.Str (Js.lit expediente)) ].

(** The state after [n] appends to [st]; an append that throws leaves the
    state as it is. *)
Fixpoint agregar_n (cfg : Config) (n : nat) (st : Estado) : Estado :=
  match n with
  | O => st
  | S n' =>
      match Blockchain.agregarBloque cfg ahora (datos "1/2025") st with
      | inr (_, st') => agregar_n cfg n' st'
      | inl _ => st
      end
  end.

(** Genesis and two appended blocks. *)
Definition ESTADO_tres : Estado := agregar_n CONFIG 2 ESTADO_genesis.

(** [bloque.data = d] on a stored block, the other properties kept. *)
Definition alterar_data (d : JSON.valor) (b : Bloque) : Bloque :=
  {| cabecera := {| index := index b; timestamp := timestamp b; data := d;
                    previousHash := previousHash b; nonce := nonce b;
                    difficulty := difficulty b |};
     hash := hash b |}.

(** The chain of [ESTADO_tres] with the payload of blocks 1 and 2 replaced. *)
Definition cadena_alterada : list Bloque :=
  match blockchain ESTADO_tres with
  | g :: resto => g :: (alterar_data (datos "2/2025") <$> resto)
  | [] => []
  end.

(** The shipped configuration with another difficulty. *)
Definition CONFIG_dificultad (d : nat) : Config :=
  {| version := version CONFIG; año := año CONFIG; dificultadProofOfWork := d;
     usarBlockchain := usarBlockchain CONFIG; carpetaDescarga := carpetaDescarga CONFIG |}.

(** The literal [agregarBloque] hands to the miner on [ESTADO_genesis]. *)
Definition nuevo (d : nat) : Cabecera :=
  {| index := 1; timestamp := ahora; data := datos "1/2025";
     previousHash := hash (Blockchain.crearBloqueGenesis CONFIG ahora);
     nonce := 0; difficulty := d |}.

(** Two references of one case file, served from two addresses. *)
Definition expediente : Expediente :=
  {| numero := Js.lit "Varios 1/2025"; hashID := Js.lit "SCJN_2025_Varios_1_2025" |}.

Definition documento_a : Documento :=
  {| url := Js.lit "https://www2.scjn.gob.mx/docs/a.pdf";
     texto := Js.lit "Sentencia"; tipo := Js.lit "SENTENCIA" |}.

Definition documento_b : Documento :=
  {| url := Js.lit "https://www2.scjn.gob.mx/copias/b.pdf";
     texto := Js.lit "Sentencia"; tipo := Js.lit "SENTENCIA" |}.

Definition reloj (ms : Z) : Reloj :=
  {| date_now := ms; iso_registro := ahora; iso_bloque := ahora; iso_auditoria := ahora |}.

(** The bytes both addresses serve. *)
Definition contenido : list Z := [37; 80; 68; 70; 45; 49; 46; 52].

End Ejemplos.

(** ** Digests and identifiers ([Crypto]) *)

Module Crypto.

(** [a | b] *)
Definition bor (a b : Z) : Z := Z.lor (Js.toInt32 a) (Js.toInt32 b).

(** [hashArray.map(b => b.toString(16).padStart(2, '0')).join('')] *)
Definition hexDeBytes (hashArray : list Z) : Js.cadena :=
  concat ((fun b => Js.padStart 2 48 (Js.toString 16 b)) <$> hashArray).

Section Digest.

(** [crypto.subtle.digest('SHA-256', data)] as the list of its bytes. *)
Variable digest : list Z -> list Z.

(** [sha256File(archivo)]; [sha256(texto)] differs by the UTF-8 encoding of
    the text into bytes only. *)
Definition sha256File (archivo : list Z) : Js.cadena := hexDeBytes (digest archivo).

End Digest.

(** The template ['xxxxxxxx-xxxx-4xxx-yxxx-xxxxxxxxxxxx'] *)
Definition plantillaUUID : Js.cadena := Js.lit "xxxxxxxx-xxxx-4xxx-yxxx-xxxxxxxxxxxx".

(** The callback of [replace(/[xy]/g, ...)] on the character [c] with the
    draw [r = Math.random() * 16 | 0]. *)
Definition cifraUUID (c r : Z) : Js.cadena :=
  let v := if c =? 120 then r else bor (Js.band r 3) 8 in
  Js.toString 16 v.

(** [plantilla.replace(/[xy]/g, ...)]: [azar i] is the draw of the [i]-th
    call of the callback, [i] the number of calls made so far. *)
Fixpoint reemplazarXY (azar : nat -> Z) (plantilla : Js.cadena) (i : nat) : Js.cadena :=
  match plantilla with
  | [] => []
  | c :: resto =>
      if (c =? 120) || (c =? 121) then cifraUUID c (azar i) ++ reemplazarXY azar resto (S i)
      else c :: reemplazarXY azar resto i
  end.

Definition generateUUID (azar : nat -> Z) : Js.cadena :=
  reemplazarXY azar plantillaUUID 0.

End Crypto.

(** ** Classification of links ([Extractor.clasificarTipoDocumento]) *)

Module Extractor.

(** [s.includes(sub)] *)
Fixpoint includes (s sub : Js.cadena) : bool :=
  Js.startsWith s sub ||
  match s with
  | [] => false
  | _ :: s' => includes s' sub
  end.

Section Clasificacion.

(** [String.prototype.toLowerCase], the case mapping of Unicode. *)
Variable toLowerCase : Js.cadena -> Js.cadena.

Definition clasificarTipoDocumento (url texto : Js.cadena) : Js.cadena :=
  let textoLower := toLowerCase texto in
  let urlLower := toLowerCase url in
  if includes textoLower (Js.lit "engrose") || includes urlLower (Js.lit "engrose") then
    Js.lit "ENGROSE"
  else if includes textoLower (Js.lit "sentencia") || includes urlLower (Js.lit "sentencia") then
    Js.lit "SENTENCIA"
  else if includes textoLower (Js.lit "resoluci") || includes urlLower (Js.lit "resoluci") then
    Js.lit "RESOLUCION"
  else if includes textoLower (Js.lit "acuerdo") || includes urlLower (Js.lit "acuerdo") then
    Js.lit "ACUERDO"
  else if includes urlLower (Js.lit ".pdf") then Js.lit "DOCUMENTO_PDF"
  else Js.lit "DOCUMENTO".

End Clasificacion.

End Extractor.

(** ** Downloads of a case file ([Descargador.descargarDocumentosExpediente]) *)

Module Lote.

Section Descargas.

Variable sha256File : list Z -> Js.cadena.

(** The [for (const documento of expediente.documentos)] loop. Each
    document comes with the clock readings and the response of its request.
    The list returned holds, per document, how its promise settled: the
    resolved value, or the rejection the [catch] turns into
    [{exito: false, error: error.message}]. *)
Fixpoint descargarDocumentosExpediente (cfg : Config) (expediente : Expediente)
    (documentos : list (Documento * Reloj * Respuesta)) (st : Estado)
    : Estado * list Resultado :=
  match documentos with
  | [] => (st, [])
  | (documento, reloj, respuesta) :: resto =>
      let '(st1, resultado) :=
        Descargador.descargarDocumento sha256File cfg reloj documento expediente
          respuesta st in
      let '(st2, resultados) := descargarDocumentosExpediente cfg expediente resto st1 in
      (st2, resultado :: resultados)
  end.

End Descargas.

(** The number of requests of a list that were answered with a blob. *)
Definition es_carga (respuesta : Respuesta) : bool :=
  match respuesta with Onload _ => true | _ => false end.

Definition cargadas (documentos : list (Documento * Reloj * Respuesta)) : nat :=
  length (List.filter (fun d => es_carga d.2) documentos).

End Lote.

(** ** Nonce generator ([ESTRATEGIA_NUMEROS_PRIMOS.md]) *)

Module Nonces.

Section Generador.

(** [self._prime_gen.is_prime] *)
Variable is_prime : Z -> bool.

(** [while self._prime_gen.is_prime(self._current): self._current += 1],
    [None] when the fuel runs out before the loop ends. *)
Fixpoint saltar_primos (fuel : nat) (current : Z) : option Z :=
  match fuel with
  | O => None
  | S fuel' =>
      if is_prime current then saltar_primos fuel' (current + 1) else Some current
  end.

(** [get_next_nonce]: the new value of [self._current], which is also the
    value returned. *)
Definition get_next_nonce (fuel : nat) (current : Z) : option Z :=
  saltar_primos fuel (current + 1).

End Generador.

End Nonces.

(** ** Further notions used in the statements *)

(** A chain as the ledger keeps it: not empty, every block at the position
    its [index] names, and accepted by [validarBlockchain]. *)
Definition cadena_sellada (blockchain : list Bloque) : Prop :=
  blockchain <> [] /\
  (forall i (b : Bloque), blockchain !! i = Some b -> index b = Z.of_nat i) /\
  Blockchain.es_valida (Blockchain.validarBlockchain blockchain) = true.

(** Two blocks that the validation cannot tell apart: the same link, the
    same stored hash, the same difficulty and the same recomputed hash. *)
Definition mismo_sello (b b' : Bloque) : Prop :=
  previousHash b = previousHash b' /\ hash b = hash b' /\
  difficulty b = difficulty b' /\
  Blockchain.calcularHashBloque b = Blockchain.calcularHashBloque b'.

(** The members [JSON.stringify] prints for the properties of an object,
    the inner loop of [JSON.serializar] on its own. *)
Fixpoint miembros (ps : list (Js.cadena * JSON.valor)) : list Js.cadena :=
  match ps with
  | [] => []
  | (k, JSON.Undefined) :: ps' => miembros ps'
  | (k, x) :: ps' => (JSON.citar k ++ [58] ++ JSON.serializar x) :: miembros ps'
  end.

(** A code unit that [JSON.stringify] copies as it is. *)
Definition es_llano (c : Z) : Prop :=
  32 <= c /\ c <> 34 /\ c <> 92 /\ ~ (55296 <= c <= 57343).

(** [bloque.data = d] on a block literal. *)
Definition con_data (b : Cabecera) (d : JSON.valor) : Cabecera :=
  {| index := index b; timestamp := timestamp b; data := d;
     previousHash := previousHash b; nonce := nonce b; difficulty := difficulty b |}.

(** The first nonce whose hash meets the target of [bloque]. *)
Definition primer_acierto (bloque : Cabecera) (n : Z) : Prop :=
  0 <= n < Blockchain.maxIteraciones /\
  Js.startsWith (Blockchain.calcularHashBloque (con_nonce bloque n))
                (Js.repeat 48 (difficulty bloque)) = true /\
  forall j, 0 <= j < n ->
    Js.startsWith (Blockchain.calcularHashBloque (con_nonce bloque j))
                  (Js.repeat 48 (difficulty bloque)) = false.

(** ** Further sample inputs *)

Module Muestras.

(** A literal with a target of 57 zeros that nonce 0 misses and nonce 1
    meets. *)
Definition nuevo_57 : Cabecera :=
  {| index := 1; timestamp := Ejemplos.ahora;
     data := Ejemplos.datos "0003687100/2025";
     previousHash := hash (Blockchain.crearBloqueGenesis CONFIG Ejemplos.ahora);
     nonce := 0; difficulty := 57 |}.

End Muestras.

(** * Properties *)

Import Blockchain.

(** ** 32-bit arithmetic and number printing *)

Section Numeros.

Lemma toInt32_rango x : - 2 ^ 31 <= Js.toInt32 x < 2 ^ 31.
Proof.
  unfold Js.toInt32.
  pose proof (Z.mod_pos_bound (x + 2 ^ 31) (2 ^ 32) ltac:(lia)). lia.
Qed.

Lemma band_diag x : Js.band x x = Js.toInt32 x.
Proof. unfold Js.band. apply Z.land_diag. Qed.

Lemma digitos_longitud base fuel : 
  1 < base ->
  forall (k : nat) n, (1 <= k)%nat -> 0 <= n < base ^ Z.of_nat k ->
  (length (Js.digitos base fuel n) <= k)%nat.
Proof.
  intros Hb. induction fuel as [|fuel IH]; intros k n Hk Hn; simpl; [lia|].
  destruct (Z.ltb_spec n base) as [Hlt|Hge]; simpl; [lia|].
  rewrite length_app. simpl.
  destruct k as [|k]; [lia|].
  destruct k as [|k].
  - change (Z.of_nat 1) with 1 in Hn. rewrite Z.pow_1_r in Hn. lia.
  - specialize (IH (S k) (n / base) ltac:(lia)).
    assert (0 <= n / base < base ^ Z.of_nat (S k)) as Hq.
    { split; [apply Z.div_pos; lia|].
      apply Z.div_lt_upper_bound; [lia|].
      replace (Z.of_nat (S (S k))) with (Z.succ (Z.of_nat (S k))) in Hn by lia.
      rewrite Z.pow_succ_r in Hn by lia. lia. }
    specialize (IH Hq). lia.
Qed.

Lemma toString_no_negativo base n :
  0 <= n -> Js.toString base n = Js.digitos base (S (Z.to_nat (Z.log2 n))) n.
Proof.
  intros Hn. unfold Js.toString.
  destruct (Z.ltb_spec n 0); [lia|]. rewrite Z.abs_eq by lia. reflexivity.
Qed.

(** The fuel of [toString] is enough: more fuel prints the same digits. *)
Lemma digitos_combustible base fuel :
  2 <= base ->
  forall n, 0 <= n < 2 ^ Z.of_nat fuel -> (1 <= fuel)%nat ->
  Js.digitos base (S fuel) n = Js.digitos base fuel n.
Proof.
  intros Hb. induction fuel as [|fuel IH]; intros n Hn Hf; [lia|].
  change (Js.digitos base (S (S fuel)) n) with
    (if n <? base then [Js.digito n]
     else Js.digitos base (S fuel) (n / base) ++ [Js.digito (n mod base)]).
  change (Js.digitos base (S fuel) n) with
    (if n <? base then [Js.digito n]
     else Js.digitos base fuel (n / base) ++ [Js.digito (n mod base)]).
  destruct (Z.ltb_spec n base) as [Hlt|Hge]; [reflexivity|].
  f_equal. destruct fuel as [|fuel].
  - change (2 ^ Z.of_nat 1) with 2 in Hn. lia.
  - apply IH; [|lia]. split; [apply Z.div_pos; lia|].
    apply Z.div_lt_upper_bound; [lia|].
    replace (Z.of_nat (S (S fuel))) with (Z.succ (Z.of_nat (S fuel))) in Hn by lia.
    rewrite Z.pow_succ_r in Hn by lia.
    assert (0 < 2 ^ Z.of_nat (S fuel)) by (apply Z.pow_pos_nonneg; lia). nia.
Qed.

Lemma toString_combustible base n :
  2 <= base -> 0 < n ->
  Js.digitos base (S (S (Z.to_nat (Z.log2 n)))) n = Js.toString base n.
Proof.
  intros Hb Hn. rewrite toString_no_negativo by lia.
  apply digitos_combustible; [exact Hb| |lia].
  rewrite Nat2Z.inj_succ, Z2Nat.id by apply Z.log2_nonneg.
  pose proof (Z.log2_spec n Hn). lia.
Qed.

Lemma digito_hex d : 0 <= d < 16 -> es_hex (Js.digito d).
Proof.
  intros Hd. unfold Js.digito, es_hex.
  destruct (Z.ltb_spec d 10); lia.
Qed.

Lemma digitos_hex fuel : forall n, 0 <= n -> Forall es_hex (Js.digitos 16 fuel n).
Proof.
  induction fuel as [|fuel IH]; intros n Hn; simpl; [constructor|].
  destruct (Z.ltb_spec n 16) as [Hlt|Hge].
  - constructor; [|constructor]. apply digito_hex. lia.
  - apply Forall_app. split.
    + apply IH. apply Z.div_pos; lia.
    + constructor; [|constructor]. apply digito_hex. apply Z.mod_pos_bound. lia.
Qed.

Lemma startsWith_replicate (c : Z) (d m : nat) s :
  (d <= m)%nat -> Js.startsWith (replicate m c ++ s) (replicate d c) = true.
Proof.
  revert m. induction d as [|d IH]; intros m Hdm; [reflexivity|].
  destruct m as [|m]; [lia|]. simpl.
  rewrite Z.eqb_refl. simpl. apply IH. lia.
Qed.

Lemma startsWith_longitud s p :
  Js.startsWith s p = true -> (length p <= length s)%nat.
Proof.
  revert s. induction p as [|a p IH]; intros s H; simpl; [lia|].
  destruct s as [|b s]; [discriminate|]. simpl in *.
  apply andb_prop in H as [_ H]. apply IH in H. lia.
Qed.

End Numeros.

(** ** The block hash *)

Section Hash.

Lemma sha256Sync_paso_rango hash char :
  - 2 ^ 31 <= sha256Sync_paso hash char < 2 ^ 31.
Proof. unfold sha256Sync_paso. rewrite band_diag. apply toInt32_rango. Qed.

Lemma fold_paso_rango str : forall hash,
  - 2 ^ 31 <= hash < 2 ^ 31 ->
  - 2 ^ 31 <= fold_left sha256Sync_paso str hash < 2 ^ 31.
Proof.
  induction str as [|c str IH]; intros hash Hh; simpl; [exact Hh|].
  apply IH. apply sha256Sync_paso_rango.
Qed.

Lemma sha256Sync_acumulador_rango str :
  - 2 ^ 31 <= sha256Sync_acumulador str < 2 ^ 31.
Proof. apply fold_paso_rango. lia. Qed.

(** The digits that [toString(16)] leaves before padding: at most eight. *)
Lemma sha256Sync_cifras str :
  (length (Js.toString 16 (Z.abs (sha256Sync_acumulador str))) <= 8)%nat.
Proof.
  pose proof (sha256Sync_acumulador_rango str) as Hr.
  rewrite toString_no_negativo by lia.
  apply digitos_longitud; [lia|lia|].
  change (16 ^ Z.of_nat 8) with (2 ^ 32). lia.
Qed.

Lemma sha256Sync_forma str :
  exists cifras : Js.cadena,
    (length cifras <= 8)%nat /\ Forall es_hex cifras /\
    sha256Sync str = replicate (64 - length cifras) 48 ++ cifras.
Proof.
  exists (Js.toString 16 (Z.abs (sha256Sync_acumulador str))).
  split; [apply sha256Sync_cifras|]. split; [|reflexivity].
  rewrite toString_no_negativo by lia. apply digitos_hex. lia.
Qed.

Lemma sha256Sync_longitud str : length (sha256Sync str) = 64%nat.
Proof.
  destruct (sha256Sync_forma str) as (cifras & Hl & _ & ->).
  rewrite length_app, length_replicate. lia.
Qed.

Lemma sha256Sync_ceros str : take 56 (sha256Sync str) = replicate 56 48.
Proof.
  destruct (sha256Sync_forma str) as (cifras & Hl & _ & ->).
  replace (64 - length cifras)%nat with (56 + (8 - length cifras))%nat by lia.
  rewrite replicate_add, <- app_assoc.
  rewrite take_app_length'; [reflexivity|]. symmetry. apply length_replicate.
Qed.

Lemma sha256Sync_hex str : Forall es_hex (sha256Sync str).
Proof.
  destruct (sha256Sync_forma str) as (cifras & _ & Hh & ->).
  apply Forall_app. split; [|exact Hh].
  apply Forall_replicate. left. lia.
Qed.

Lemma sha256Sync_startsWith str (d : nat) :
  (d <= 56)%nat -> Js.startsWith (sha256Sync str) (Js.repeat 48 d) = true.
Proof.
  intros Hd. destruct (sha256Sync_forma str) as (cifras & Hl & _ & ->).
  apply startsWith_replicate. lia.
Qed.

Lemma sha256Sync_nunca_65 str (d : nat) :
  (64 < d)%nat -> Js.startsWith (sha256Sync str) (Js.repeat 48 d) = false.
Proof.
  intros Hd. destruct (Js.startsWith _ _) eqn:E; [|reflexivity].
  apply startsWith_longitud in E.
  rewrite sha256Sync_longitud in E. unfold Js.repeat in E.
  rewrite length_replicate in E. lia.
Qed.

End Hash.

(** ** Proof of work *)

Section ProofOfWork.

Lemma minar_S quedan prefix bloque nonce hash0 :
  minar (S quedan) prefix bloque nonce hash0 =
  let bloque' := con_nonce bloque nonce in
  let hash' := calcularHashBloque bloque' in
  if Js.startsWith hash' prefix then ({| cabecera := bloque'; hash := hash' |}, [nonce])
  else let '(final, probados) := minar quedan prefix bloque' (nonce + 1) hash' in
       (final, nonce :: probados).
Proof. reflexivity. Qed.

Lemma iteraciones_S : Z.to_nat maxIteraciones = S (Z.to_nat (maxIteraciones - 1)).
Proof.
  rewrite <- Z2Nat.inj_succ by (unfold maxIteraciones; lia).
  f_equal.
Qed.

(** A hash that meets the target ends the search at once. *)
Lemma minar_exito quedan prefix bloque nonce hash0 :
  Js.startsWith (calcularHashBloque (con_nonce bloque nonce)) prefix = true ->
  minar (S quedan) prefix bloque nonce hash0 =
  ({| cabecera := con_nonce bloque nonce;
      hash := calcularHashBloque (con_nonce bloque nonce) |}, [nonce]).
Proof. intros H. rewrite minar_S. cbv zeta. rewrite H. reflexivity. Qed.

(** The nonces tried are consecutive integers from the starting one. *)
Lemma minar_consecutivos quedan : forall prefix bloque nonce hash0,
  exists k : nat,
    (k <= quedan)%nat /\ (1 <= quedan -> 1 <= k)%nat /\
    snd (minar quedan prefix bloque nonce hash0) = seqZ nonce (Z.of_nat k).
Proof.
  induction quedan as [|quedan IH]; intros prefix bloque nonce hash0.
  - exists 0%nat. split; [lia|]. split; [lia|]. reflexivity.
  - rewrite minar_S. cbv zeta.
    destruct (Js.startsWith _ prefix).
    + exists 1%nat. split; [lia|]. split; [lia|]. reflexivity.
    + destruct (IH prefix (con_nonce bloque nonce) (nonce + 1)
                  (calcularHashBloque (con_nonce bloque nonce))) as (k & Hk & _ & Hs).
      destruct (minar quedan _ _ _ _) as [final probados]. simpl in *.
      exists (S k). split; [lia|]. split; [lia|].
      rewrite seqZ_cons by lia. rewrite Hs. do 2 f_equal; lia.
Qed.

(** When every hash misses the target the loop runs [quedan] times and
    leaves the last nonce and the last hash in the block. *)
Lemma minar_agotado quedan : forall prefix bloque nonce hash0,
  (forall j, nonce <= j < nonce + Z.of_nat (S quedan) ->
     Js.startsWith (calcularHashBloque (con_nonce bloque j)) prefix = false) ->
  minar (S quedan) prefix bloque nonce hash0 =
  ({| cabecera := con_nonce bloque (nonce + Z.of_nat quedan);
      hash := calcularHashBloque (con_nonce bloque (nonce + Z.of_nat quedan)) |},
   seqZ nonce (Z.of_nat (S quedan))).
Proof.
  induction quedan as [|quedan IH]; intros prefix bloque nonce hash0 H.
  - rewrite minar_S. cbv zeta. rewrite H by lia. simpl minar. cbv iota beta.
    replace (nonce + Z.of_nat 0) with nonce by lia. reflexivity.
  - rewrite minar_S. cbv zeta. rewrite H by lia.
    rewrite (IH prefix (con_nonce bloque nonce) (nonce + 1)).
    + replace (nonce + 1 + Z.of_nat quedan) with (nonce + Z.of_nat (S quedan)) by lia.
      f_equal. rewrite (seqZ_cons nonce) by lia. do 2 f_equal; lia.
    + intros j Hj. apply (H j). lia.
Qed.

Lemma calcularProofOfWork_traza_agotado bloque :
  agotado bloque ->
  calcularProofOfWork_traza bloque =
  ({| cabecera := con_nonce bloque (maxIteraciones - 1);
      hash := calcularHashBloque (con_nonce bloque (maxIteraciones - 1)) |},
   seqZ 0 maxIteraciones).
Proof.
  intros H. unfold calcularProofOfWork_traza. rewrite iteraciones_S.
  rewrite minar_agotado.
  - rewrite <- iteraciones_S.
    rewrite !Z2Nat.id by (unfold maxIteraciones; lia). reflexivity.
  - intros j Hj. apply H. rewrite <- iteraciones_S in Hj.
    rewrite Z2Nat.id in Hj by (unfold maxIteraciones; lia). lia.
Qed.

(** With at most 56 zeros asked for, the first hash already qualifies. *)
Lemma calcularProofOfWork_traza_56 bloque :
  (difficulty bloque <= 56)%nat ->
  calcularProofOfWork_traza bloque =
  ({| cabecera := con_nonce bloque 0;
      hash := calcularHashBloque (con_nonce bloque 0) |}, [0]).
Proof.
  intros H. unfold calcularProofOfWork_traza. rewrite iteraciones_S.
  apply minar_exito. apply sha256Sync_startsWith. exact H.
Qed.

(** A target longer than the hash is never met. *)
Lemma agotado_65 bloque : (64 < difficulty bloque)%nat -> agotado bloque.
Proof. intros H n _. apply sha256Sync_nunca_65. exact H. Qed.

(** The stored hash of a mined block is the hash of its own fields. *)
Lemma minar_hash quedan : forall prefix bloque nonce hash0,
  hash (fst (minar (S quedan) prefix bloque nonce hash0)) =
  calcularHashBloque (fst (minar (S quedan) prefix bloque nonce hash0)).
Proof.
  induction quedan as [|quedan IH]; intros prefix bloque nonce hash0.
  - rewrite minar_S. cbv zeta. destruct (Js.startsWith _ prefix); reflexivity.
  - rewrite minar_S. cbv zeta. destruct (Js.startsWith _ prefix); [reflexivity|].
    specialize (IH prefix (con_nonce bloque nonce) (nonce + 1)
                  (calcularHashBloque (con_nonce bloque nonce))).
    destruct (minar (S quedan) _ _ _ _) as [final probados]. exact IH.
Qed.

Lemma calcularProofOfWork_hash bloque :
  hash (calcularProofOfWork bloque) = calcularHashBloque (calcularProofOfWork bloque).
Proof.
  unfold calcularProofOfWork, calcularProofOfWork_traza.
  rewrite iteraciones_S. apply minar_hash.
Qed.

(** Mining changes the nonce only. *)
Lemma minar_campos quedan : forall prefix bloque nonce hash0,
  let b := fst (minar quedan prefix bloque nonce hash0) in
  index b = index bloque /\ timestamp b = timestamp bloque /\
  data b = data bloque /\ previousHash b = previousHash bloque /\
  difficulty b = difficulty bloque.
Proof.
  induction quedan as [|quedan IH]; intros prefix bloque nonce hash0.
  - simpl. repeat split.
  - rewrite minar_S. cbv zeta. destruct (Js.startsWith _ prefix).
    + simpl. repeat split.
    + specialize (IH prefix (con_nonce bloque nonce) (nonce + 1)
                    (calcularHashBloque (con_nonce bloque nonce))).
      destruct (minar quedan _ _ _ _) as [final probados]. exact IH.
Qed.

End ProofOfWork.

(** ** Validation *)

Section Validacion.

Lemma comprobarBloque_casos i actual anterior v :
  comprobarBloque i actual anterior = Some v ->
  v = error_previousHash i \/ v = error_hash i \/ v = error_pow i.
Proof.
  unfold comprobarBloque. intros H.
  destruct (decide (previousHash actual ≠ hash anterior)); [injection H; auto|].
  cbv zeta in H.
  destruct (decide (hash actual ≠ calcularHashBloque actual)); [injection H; auto|].
  destruct (negb _); [injection H; auto|discriminate].
Qed.

Lemma comprobarBloque_indice i actual anterior v :
  comprobarBloque i actual anterior = Some v ->
  exists e, v = Invalida e i.
Proof.
  intros H. apply comprobarBloque_casos in H.
  destruct H as [H|[H|H]]; rewrite H; eexists; reflexivity.
Qed.

(** Only the [hash] of the preceding block is read. *)
Lemma comprobarBloque_anterior i actual anterior anterior' :
  hash anterior = hash anterior' ->
  comprobarBloque i actual anterior = comprobarBloque i actual anterior'.
Proof. intros H. unfold comprobarBloque. rewrite H. reflexivity. Qed.

(** A block passes exactly when it is linked, sealed by its own hash and
    meets its target. *)
Lemma comprobarBloque_None i actual anterior :
  comprobarBloque i actual anterior = None <->
  previousHash actual = hash anterior /\
  hash actual = calcularHashBloque actual /\
  Js.startsWith (hash actual) (Js.repeat 48 (difficulty actual)) = true.
Proof.
  unfold comprobarBloque.
  destruct (decide (previousHash actual ≠ hash anterior)) as [Hp|Hp].
  { split; [discriminate|]. intros (? & _). contradiction. }
  apply dec_stable in Hp. cbv zeta.
  destruct (decide (hash actual ≠ calcularHashBloque actual)) as [Hh|Hh].
  { split; [discriminate|]. intros (_ & ? & _). contradiction. }
  apply dec_stable in Hh.
  destruct (Js.startsWith _ _); simpl.
  - split; auto.
  - split; [discriminate|]. intros (_ & _ & ?). discriminate.
Qed.

Lemma validarDesde_S blockchain quedan i (actual anterior : Bloque) :
  blockchain !! i = Some actual ->
  blockchain !! (i - 1)%nat = Some anterior ->
  validarDesde blockchain (S quedan) i =
  match comprobarBloque i actual anterior with
  | Some invalida => invalida
  | None => validarDesde blockchain quedan (i + 1)%nat
  end.
Proof. intros Ha Hp. simpl. rewrite Ha, Hp. reflexivity. Qed.

(** The loop returns at the first position whose block fails a check, and
    only runs to the end when there is none. *)
Lemma validarDesde_primera quedan : forall blockchain i,
  (1 <= i)%nat -> quedan = (length blockchain - i)%nat ->
  (forall j, (1 <= j < i)%nat -> veredicto blockchain j = None) ->
  match validarDesde blockchain quedan i with
  | Valida _ n =>
      n = length blockchain /\
      forall j, (1 <= j)%nat -> veredicto blockchain j = None
  | Invalida e k =>
      (i <= k < length blockchain)%nat /\
      veredicto blockchain k = Some (Invalida e k) /\
      forall j, (1 <= j < k)%nat -> veredicto blockchain j = None
  | Lanza _ => False
  end.
Proof.
  induction quedan as [|quedan IH]; intros blockchain i Hi Hq Hprev.
  - simpl. split; [reflexivity|]. intros j Hj.
    destruct (decide (j < i)%nat) as [Hlt|Hge]; [apply Hprev; lia|].
    unfold veredicto. rewrite (lookup_ge_None_2 blockchain j) by lia. reflexivity.
  - destruct (lookup_lt_is_Some_2 blockchain i ltac:(lia)) as [actual Ha].
    destruct (lookup_lt_is_Some_2 blockchain (i - 1)%nat ltac:(lia)) as [anterior Hp].
    rewrite (validarDesde_S _ _ _ _ _ Ha Hp).
    destruct (comprobarBloque i actual anterior) as [v|] eqn:Hc.
    + destruct (comprobarBloque_indice _ _ _ _ Hc) as [e ->].
      split; [lia|]. split; [|exact Hprev].
      unfold veredicto. rewrite Ha, Hp. exact Hc.
    + specialize (IH blockchain (i + 1)%nat ltac:(lia) ltac:(lia)).
      assert (forall j, (1 <= j < i + 1)%nat -> veredicto blockchain j = None) as Hprev'.
      { intros j Hj. destruct (decide (j = i)) as [->|Hne]; [|apply Hprev; lia].
        unfold veredicto. rewrite Ha, Hp. exact Hc. }
      specialize (IH Hprev').
      destruct (validarDesde blockchain quedan (i + 1)%nat) as [m n|e k|ex];
        [exact IH| |exact IH].
      destruct IH as (Hk & Hv & Hmin). split; [lia|]. split; [exact Hv|exact Hmin].
Qed.

(** The genesis block is read for its [hash] only. *)
Lemma validarDesde_genesis quedan : forall (g g' : Bloque) resto i,
  (1 <= i)%nat -> hash g = hash g' ->
  validarDesde (g :: resto) quedan i = validarDesde (g' :: resto) quedan i.
Proof.
  induction quedan as [|quedan IH]; intros g g' resto i Hi Hh; [reflexivity|].
  simpl. destruct i as [|i]; [lia|]. simpl.
  replace (i - 0)%nat with i by lia.
  destruct (resto !! i) as [actual|] eqn:Ha; [|reflexivity].
  destruct i as [|i].
  - simpl. rewrite (comprobarBloque_anterior 1 actual g g' Hh).
    destruct (comprobarBloque 1 actual g'); [reflexivity|].
    apply (IH g g' resto 2%nat); [lia|exact Hh].
  - simpl. destruct (resto !! i) as [anterior|]; [|reflexivity].
    destruct (comprobarBloque _ actual anterior); [reflexivity|].
    apply (IH g g' resto (S (S i) + 1)%nat); [lia|exact Hh].
Qed.

(** Validation of a chain extended by one block: the verdict on the old
    chain stands, and a valid old chain leaves the verdict to the checks on
    the new block. *)
Lemma validarDesde_snoc quedan : forall (blockchain : list Bloque) b i,
  (1 <= i)%nat -> (i + quedan = length blockchain)%nat ->
  validarDesde (blockchain ++ [b]) (S quedan) i =
  match validarDesde blockchain quedan i with
  | Valida _ _ =>
      match last blockchain with
      | Some anterior =>
          match comprobarBloque (length blockchain) b anterior with
          | Some invalida => invalida
          | None => Valida (Js.lit "Blockchain v" ++ [225] ++ Js.lit "lida e inmutable")
                           (S (length blockchain))
          end
      | None => Lanza TypeError
      end
  | otra => otra
  end.
Proof.
  induction quedan as [|quedan IH]; intros blockchain b i Hi Hq.
  - assert (i = length blockchain) as -> by lia.
    assert ((blockchain ++ [b]) !! length blockchain = Some b) as Hb.
    { rewrite lookup_app_r by lia. replace (_ - _)%nat with 0%nat by lia. reflexivity. }
    destruct (lookup_lt_is_Some_2 blockchain (length blockchain - 1)%nat ltac:(lia))
      as [anterior Hp].
    assert (last blockchain = Some anterior) as Hl.
    { rewrite last_lookup. rewrite <- Hp. f_equal. lia. }
    rewrite (validarDesde_S _ _ _ b anterior Hb);
      [|rewrite lookup_app_l by lia; exact Hp].
    simpl validarDesde at 2. rewrite Hl.
    destruct (comprobarBloque _ b anterior); [reflexivity|].
    simpl. rewrite length_app. simpl. f_equal. lia.
  - destruct (lookup_lt_is_Some_2 blockchain i ltac:(lia)) as [actual Ha].
    destruct (lookup_lt_is_Some_2 blockchain (i - 1)%nat ltac:(lia)) as [anterior Hp].
    rewrite (validarDesde_S (blockchain ++ [b]) _ _ actual anterior);
      [|rewrite lookup_app_l by lia; exact Ha|rewrite lookup_app_l by lia; exact Hp].
    rewrite (validarDesde_S blockchain _ _ actual anterior Ha Hp).
    destruct (comprobarBloque i actual anterior) as [v|] eqn:Hc.
    + destruct (comprobarBloque_indice _ _ _ _ Hc) as [e ->]. reflexivity.
    + apply IH; lia.
Qed.

Lemma validarBlockchain_snoc (blockchain : list Bloque) b anterior m n :
  last blockchain = Some anterior ->
  validarBlockchain blockchain = Valida m n ->
  validarBlockchain (blockchain ++ [b]) =
  match comprobarBloque (length blockchain) b anterior with
  | Some invalida => invalida
  | None => Valida (Js.lit "Blockchain v" ++ [225] ++ Js.lit "lida e inmutable")
                   (S (length blockchain))
  end.
Proof.
  intros Hl Hv. unfold validarBlockchain in *.
  assert (1 <= length blockchain)%nat as Hlen.
  { destruct blockchain; [discriminate|simpl; lia]. }
  rewrite length_app. simpl.
  replace (length blockchain + 1 - 1)%nat with (S (length blockchain - 1)) by lia.
  rewrite validarDesde_snoc by lia. rewrite Hv, Hl. reflexivity.
Qed.

End Validacion.

(** ** The chain under [iniciar] and [agregarBloque] *)

Section Cadena.

Lemma ultimo_last (blockchain : list Bloque) : ultimo blockchain = last blockchain.
Proof.
  unfold ultimo. rewrite last_lookup. f_equal. lia.
Qed.

Lemma calcularProofOfWork_campos bloque :
  let b := calcularProofOfWork bloque in
  index b = index bloque /\ timestamp b = timestamp bloque /\
  data b = data bloque /\ previousHash b = previousHash bloque /\
  difficulty b = difficulty bloque.
Proof. apply minar_campos. Qed.

(** On an empty chain there is no last block and the call throws. *)
Lemma agregarBloque_vacia cfg ahora data st :
  blockchain st = [] -> agregarBloque cfg ahora data st = inl TypeError.
Proof. intros H. unfold agregarBloque, nuevoBloque. rewrite H. reflexivity. Qed.

(** What a returning call did. *)
Lemma agregarBloque_inr cfg ahora data st bloque st' :
  agregarBloque cfg ahora data st = inr (bloque, st') ->
  exists anterior,
    last (blockchain st) = Some anterior /\
    bloque = calcularProofOfWork
               {| index := Z.of_nat (length (blockchain st)); timestamp := ahora;
                  data := data; previousHash := hash anterior; nonce := 0;
                  difficulty := dificultadProofOfWork cfg |} /\
    st' = contar_bloque (push_bloque bloque st).
Proof.
  unfold agregarBloque, nuevoBloque. rewrite ultimo_last.
  destruct (last (blockchain st)) as [anterior|]; [|discriminate].
  intros H. injection H as <- <-. exists anterior. repeat split.
Qed.

(** On a chain with a last block the call returns. *)
Lemma agregarBloque_devuelve cfg ahora data st :
  blockchain st <> [] ->
  exists bloque st', agregarBloque cfg ahora data st = inr (bloque, st').
Proof.
  intros H. unfold agregarBloque, nuevoBloque. rewrite ultimo_last.
  destruct (last (blockchain st)) as [anterior|] eqn:E.
  - eexists _, _. reflexivity.
  - apply last_None in E. contradiction.
Qed.

Lemma iniciar_blockchain_vacia cfg ahora st :
  blockchain st = [] ->
  blockchain (ControladorPrincipal.iniciar_blockchain cfg ahora st)
  = [crearBloqueGenesis cfg ahora].
Proof.
  intros H. unfold ControladorPrincipal.iniciar_blockchain. rewrite H. simpl.
  rewrite H. reflexivity.
Qed.

(** Every block of a run sits at the position its [index] names. *)
Lemma alcanzable_indices st :
  alcanzable st ->
  blockchain st <> [] /\
  forall i (b : Bloque), blockchain st !! i = Some b -> index b = Z.of_nat i.
Proof.
  induction 1 as [cfg ahora st Hv|cfg ahora data st bloque st' Hst IH Hag].
  - rewrite (iniciar_blockchain_vacia _ _ _ Hv). split; [discriminate|].
    intros [|i] b Hb; [|discriminate]. injection Hb as <-. reflexivity.
  - destruct IH as [Hne IH].
    apply agregarBloque_inr in Hag as (anterior & _ & Hb & ->). simpl.
    split; [intros E; apply app_eq_nil in E as [_ E]; discriminate|].
    intros i b Hi. destruct (decide (i < length (blockchain st))%nat) as [Hlt|Hge].
    + rewrite lookup_app_l in Hi by exact Hlt. apply IH. exact Hi.
    + rewrite lookup_app_r in Hi by lia.
      destruct (i - length (blockchain st))%nat as [|k] eqn:Ek; [|discriminate].
      injection Hi as <-. rewrite Hb.
      destruct (calcularProofOfWork_campos
                  {| index := Z.of_nat (length (blockchain st)); timestamp := ahora;
                     data := data; previousHash := hash anterior; nonce := 0;
                     difficulty := dificultadProofOfWork cfg |}) as [-> _].
      simpl. lia.
Qed.

End Cadena.

(** ** Block identifiers *)

Section Identificadores.

Lemma alcanzable_agregar_n cfg n : forall st,
  alcanzable st -> alcanzable (Ejemplos.agregar_n cfg n st).
Proof.
  induction n as [|n IH]; intros st Hst; simpl; [exact Hst|].
  destruct (agregarBloque cfg Ejemplos.ahora (Ejemplos.datos "1/2025") st)
    as [e|[b st']] eqn:E; [exact Hst|].
  apply IH. eapply alcanzable_agregar; eassumption.
Qed.

Lemma alcanzable_ESTADO_genesis : alcanzable Ejemplos.ESTADO_genesis.
Proof. apply alcanzable_iniciar. reflexivity. Qed.

Lemma alcanzable_ESTADO_tres : alcanzable Ejemplos.ESTADO_tres.
Proof. apply alcanzable_agregar_n. apply alcanzable_ESTADO_genesis. Qed.

(** C1, as stated, fails: a run of [iniciar] and two appends numbers its
    blocks 0, 1 and 2; the genesis block and the first appended block carry
    identifiers that are not prime, for the number theory of the library and
    for the test of the repository alike. *)
Lemma identificadores_no_primos :
  alcanzable Ejemplos.ESTADO_tres /\
  ((fun b : Bloque => index b) <$> blockchain Ejemplos.ESTADO_tres) = [0; 1; 2] /\
  ~ Z.prime 0 /\ ~ Z.prime 1 /\
  (forall testigos, Primos.is_prime_miller_rabin 0 testigos = false) /\
  (forall testigos, Primos.is_prime_miller_rabin 1 testigos = false).
Proof.
  split; [apply alcanzable_ESTADO_tres|].
  split; [vm_compute; reflexivity|].
  split; [apply Z.not_prime_0|]. split; [apply Z.not_prime_1|].
  split; intros testigos; reflexivity.
Qed.

(** C1, amended: in every chain of a run (genesis pushed by [iniciar],
    then appends through [agregarBloque]) the identifier of the block at
    position [i] is [i]; the identifiers therefore increase strictly, by
    one from block to block, starting at 0. *)
Theorem identificadores_posicionales st :
  alcanzable st ->
  (forall i (b : Bloque), blockchain st !! i = Some b -> index b = Z.of_nat i) /\
  indices_crecientes (blockchain st).
Proof.
  intros Hst. destruct (alcanzable_indices st Hst) as [_ Hpos].
  split; [exact Hpos|].
  intros i j bi bj Hij Hi Hj.
  rewrite (Hpos i bi Hi), (Hpos j bj Hj). lia.
Qed.

Lemma identificadores_posicionales_witness :
  (forall i (b : Bloque),
     blockchain Ejemplos.ESTADO_tres !! i = Some b -> index b = Z.of_nat i) /\
  indices_crecientes (blockchain Ejemplos.ESTADO_tres).
Proof.
  apply (identificadores_posicionales Ejemplos.ESTADO_tres).
  apply alcanzable_ESTADO_tres.
Defined.

End Identificadores.

(** ** Appending *)

Section Anexar.

(** C8, as stated for every chain state, fails on the empty chain: there
    [agregarBloque] finds no last block, throws, and adds nothing. *)
Lemma agregarBloque_cadena_vacia :
  blockchain ESTADO_inicial = [] /\
  agregarBloque CONFIG Ejemplos.ahora (Ejemplos.datos "1/2025") ESTADO_inicial
  = inl TypeError.
Proof. split; reflexivity. Qed.

(** C8, amended: on every state whose chain holds at least one block,
    [agregarBloque] returns a block, and the new chain is the old chain
    followed by that block: every block stays at its position with its
    value, the length grows by one, and of the rest of [ESTADO] only the
    counter [bloquesCreados] changes. *)
Theorem agregarBloque_solo_anexa cfg ahora data st :
  blockchain st <> [] ->
  exists bloque st',
    agregarBloque cfg ahora data st = inr (bloque, st') /\
    blockchain st' = blockchain st ++ [bloque] /\
    length (blockchain st') = S (length (blockchain st)) /\
    (forall i (b : Bloque), blockchain st !! i = Some b -> blockchain st' !! i = Some b) /\
    blockchain st' !! length (blockchain st) = Some bloque /\
    hashRegistry st' = hashRegistry st /\
    auditLedger st' = auditLedger st /\
    errores st' = errores st /\
    archivosDescargados st' = archivosDescargados st /\
    tamañoTotalDescargado (stats st') = tamañoTotalDescargado (stats st) /\
    hashesGenerados (stats st') = hashesGenerados (stats st) /\
    bloquesCreados (stats st') = bloquesCreados (stats st) + 1.
Proof.
  intros Hne.
  destruct (agregarBloque_devuelve cfg ahora data st Hne) as (bloque & st' & E).
  exists bloque, st'. split; [exact E|].
  apply agregarBloque_inr in E as (anterior & _ & _ & ->). simpl.
  split; [reflexivity|]. split; [rewrite length_app; simpl; lia|].
  split; [intros i b Hi; apply lookup_app_l_Some; exact Hi|].
  split; [|repeat split].
  rewrite lookup_app_r by lia. replace (_ - _)%nat with 0%nat by lia. reflexivity.
Qed.

Lemma agregarBloque_solo_anexa_witness :
  exists bloque st',
    agregarBloque CONFIG Ejemplos.ahora (Ejemplos.datos "1/2025") Ejemplos.ESTADO_genesis
    = inr (bloque, st') /\
    blockchain st' = blockchain Ejemplos.ESTADO_genesis ++ [bloque] /\
    length (blockchain st') = S (length (blockchain Ejemplos.ESTADO_genesis)) /\
    (forall i (b : Bloque), blockchain Ejemplos.ESTADO_genesis !! i = Some b ->
                            blockchain st' !! i = Some b) /\
    blockchain st' !! length (blockchain Ejemplos.ESTADO_genesis) = Some bloque /\
    hashRegistry st' = hashRegistry Ejemplos.ESTADO_genesis /\
    auditLedger st' = auditLedger Ejemplos.ESTADO_genesis /\
    errores st' = errores Ejemplos.ESTADO_genesis /\
    archivosDescargados st' = archivosDescargados Ejemplos.ESTADO_genesis /\
    tamañoTotalDescargado (stats st')
    = tamañoTotalDescargado (stats Ejemplos.ESTADO_genesis) /\
    hashesGenerados (stats st') = hashesGenerados (stats Ejemplos.ESTADO_genesis) /\
    bloquesCreados (stats st') = bloquesCreados (stats Ejemplos.ESTADO_genesis) + 1.
Proof.
  apply (agregarBloque_solo_anexa CONFIG Ejemplos.ahora (Ejemplos.datos "1/2025")
           Ejemplos.ESTADO_genesis).
  discriminate.
Defined.

End Anexar.

(** ** Validation of chains *)

Section ValidacionCadenas.

(** C7: [iniciar] on a state whose chain is empty leaves exactly one block,
    the genesis block, whose [previousHash] is 64 times the character [0];
    [validarBlockchain] on that chain answers [valido: true] for one block
    and names no block. *)
Theorem genesis_sola_valida cfg ahora st :
  blockchain st = [] ->
  let st' := ControladorPrincipal.iniciar_blockchain cfg ahora st in
  exists g : Bloque,
    blockchain st' = [g] /\
    g = crearBloqueGenesis cfg ahora /\
    previousHash g = replicate 64 48 /\
    length (previousHash g) = 64%nat /\
    (exists mensaje, validarBlockchain (blockchain st') = Valida mensaje 1) /\
    es_valida (validarBlockchain (blockchain st')) = true /\
    bloques_reportados (validarBlockchain (blockchain st')) = [].
Proof.
  intros Hv st'. exists (crearBloqueGenesis cfg ahora).
  subst st'. rewrite (iniciar_blockchain_vacia _ _ _ Hv).
  split; [reflexivity|]. split; [reflexivity|]. split; [reflexivity|].
  split; [reflexivity|]. split; [eexists; reflexivity|]. split; reflexivity.
Qed.

Lemma genesis_sola_valida_witness :
  exists g : Bloque,
    blockchain Ejemplos.ESTADO_genesis = [g] /\
    g = crearBloqueGenesis CONFIG Ejemplos.ahora /\
    previousHash g = replicate 64 48 /\
    length (previousHash g) = 64%nat /\
    (exists mensaje, validarBlockchain (blockchain Ejemplos.ESTADO_genesis) = Valida mensaje 1) /\
    es_valida (validarBlockchain (blockchain Ejemplos.ESTADO_genesis)) = true /\
    bloques_reportados (validarBlockchain (blockchain Ejemplos.ESTADO_genesis)) = [].
Proof.
  apply (genesis_sola_valida CONFIG Ejemplos.ahora ESTADO_inicial).
  reflexivity.
Defined.

(** C10: the validation reads nothing of the genesis block but its stored
    [hash]: replacing its [timestamp], [data], [nonce] and [difficulty] by
    any other values, the [hash] property kept, leaves the answer of
    [validarBlockchain] the same. *)
Theorem validarBlockchain_ignora_genesis (g : Bloque) (resto : list Bloque)
    (timestamp' : Js.cadena) (data' : JSON.valor) (nonce' : Z) (difficulty' : nat) :
  validarBlockchain
    ({| cabecera := {| index := index g; timestamp := timestamp'; data := data';
                       previousHash := previousHash g; nonce := nonce';
                       difficulty := difficulty' |};
        hash := hash g |} :: resto)
  = validarBlockchain (g :: resto).
Proof.
  unfold validarBlockchain. simpl length.
  apply validarDesde_genesis; [lia|reflexivity].
Qed.

(** C2, as stated, fails: in the chain of [ESTADO_tres] with the payload of
    blocks 1 and 2 replaced, both blocks fail the hash check, and the answer
    of [validarBlockchain] names block 1 and not block 2. *)
Lemma validarBlockchain_calla_el_segundo :
  bloque_malo Ejemplos.cadena_alterada 1 /\
  bloque_malo Ejemplos.cadena_alterada 2 /\
  validarBlockchain Ejemplos.cadena_alterada = error_hash 1 /\
  bloques_reportados (validarBlockchain Ejemplos.cadena_alterada) = [1%nat] /\
  2%nat ∉ bloques_reportados (validarBlockchain Ejemplos.cadena_alterada).
Proof.
  assert (validarBlockchain Ejemplos.cadena_alterada = error_hash 1) as E
    by (vm_compute; reflexivity).
  split; [split; [lia|vm_compute; eexists; reflexivity]|].
  split; [split; [lia|vm_compute; eexists; reflexivity]|].
  split; [exact E|]. rewrite E. simpl.
  split; [reflexivity|]. intros H. apply list_elem_of_singleton in H. discriminate.
Qed.

(** C2, amended: [validarBlockchain] walks the blocks from position 1 on,
    checks each for its link to the preceding [hash], for its recomputed
    hash and for its proof-of-work prefix, and returns at the first block
    that fails a check, naming that block alone with the message of the
    first check it fails; blocks after it are not examined. It answers
    [valido: true] with the length of the chain exactly when no block from
    position 1 on fails a check; the genesis block is not checked. It never
    throws. *)
Theorem validarBlockchain_primera_violacion (blockchain : list Bloque) :
  match validarBlockchain blockchain with
  | Valida _ total =>
      total = length blockchain /\
      (forall j, (1 <= j)%nat -> veredicto blockchain j = None) /\
      bloques_reportados (validarBlockchain blockchain) = []
  | Invalida error k =>
      (1 <= k < length blockchain)%nat /\
      veredicto blockchain k = Some (Invalida error k) /\
      (forall j, (1 <= j < k)%nat -> veredicto blockchain j = None) /\
      bloques_reportados (validarBlockchain blockchain) = [k]
  | Lanza _ => False
  end.
Proof.
  pose proof (validarDesde_primera (length blockchain - 1) blockchain 1
                ltac:(lia) eq_refl ltac:(intros; lia)) as H.
  unfold validarBlockchain.
  destruct (validarDesde blockchain (length blockchain - 1) 1) as [m n|e k|ex].
  - destruct H as [Hn Hv]. repeat split; assumption.
  - destruct H as (Hk & Hv & Hmin). repeat split; try assumption; lia.
  - exact H.
Qed.

End ValidacionCadenas.

(** ** Mining *)

Section Mineria.

Lemma iteraciones_SSS :
  Z.to_nat maxIteraciones = S (S (S (Z.to_nat (maxIteraciones - 3)))).
Proof.
  rewrite <- !Z2Nat.inj_succ by (unfold maxIteraciones; lia).
  f_equal.
Qed.

Lemma minar_fallo quedan prefix bloque nonce hash0 :
  Js.startsWith (calcularHashBloque (con_nonce bloque nonce)) prefix = false ->
  snd (minar (S quedan) prefix bloque nonce hash0) =
  nonce :: snd (minar quedan prefix (con_nonce bloque nonce) (nonce + 1)
                  (calcularHashBloque (con_nonce bloque nonce))).
Proof.
  intros H. rewrite minar_S. cbv zeta. rewrite H.
  destruct (minar quedan _ _ _ _) as [final probados]. reflexivity.
Qed.

(** Two misses in a row bring the search to nonce 2. *)
Lemma minar_llega_a_2 quedan prefix bloque hash0 :
  Js.startsWith (calcularHashBloque (con_nonce bloque 0)) prefix = false ->
  Js.startsWith (calcularHashBloque (con_nonce bloque 1)) prefix = false ->
  2 ∈ snd (minar (S (S (S quedan))) prefix bloque 0 hash0).
Proof.
  intros H0 H1.
  rewrite minar_fallo by exact H0.
  rewrite minar_fallo by exact H1.
  destruct (minar_consecutivos (S quedan) prefix (con_nonce (con_nonce bloque 0) (0 + 1))
              (0 + 1 + 1) (calcularHashBloque (con_nonce (con_nonce bloque 0) (0 + 1))))
    as (k & _ & Hk & Hs).
  rewrite Hs. rewrite (seqZ_cons (0 + 1 + 1)) by lia.
  do 2 apply list_elem_of_further. apply list_elem_of_here.
Qed.

Lemma pow_incomplete_undefined (b : Bloque) : pow_incomplete b = JSON.Undefined.
Proof. reflexivity. Qed.

(** C3, as stated, fails: with a difficulty of 60 the block appended to
    [ESTADO_genesis] misses the target at nonces 0 and 1, and the search
    goes on to compute a hash for nonce 2, which is prime. *)
Lemma mineria_prueba_el_2 :
  nuevoBloque (Ejemplos.CONFIG_dificultad 60) Ejemplos.ahora (Ejemplos.datos "1/2025")
    (blockchain Ejemplos.ESTADO_genesis) = inr (Ejemplos.nuevo 60) /\
  2 ∈ nonces_probados (Ejemplos.nuevo 60) /\
  Z.prime 2 /\
  (forall testigos, Primos.is_prime_miller_rabin 2 testigos = true).
Proof.
  split; [reflexivity|]. split; [|split; [apply Z.prime_2|reflexivity]].
  unfold nonces_probados, calcularProofOfWork_traza. rewrite iteraciones_SSS.
  apply minar_llega_a_2; vm_compute; reflexivity.
Qed.

Lemma minar_primer_acierto (k : nat) : forall quedan prefix bloque nonce hash0,
  (k < quedan)%nat ->
  Js.startsWith (calcularHashBloque (con_nonce bloque (nonce + Z.of_nat k))) prefix = true ->
  (forall j, nonce <= j < nonce + Z.of_nat k ->
     Js.startsWith (calcularHashBloque (con_nonce bloque j)) prefix = false) ->
  minar quedan prefix bloque nonce hash0 =
  ({| cabecera := con_nonce bloque (nonce + Z.of_nat k);
      hash := calcularHashBloque (con_nonce bloque (nonce + Z.of_nat k)) |},
   seqZ nonce (Z.of_nat (S k))).
Proof.
  induction k as [|k IH]; intros quedan prefix bloque nonce hash0 Hq Hok Hno.
  - destruct quedan as [|quedan]; [lia|].
    replace (nonce + Z.of_nat 0) with nonce in * by lia.
    rewrite minar_exito by exact Hok. reflexivity.
  - destruct quedan as [|quedan]; [lia|].
    rewrite minar_S. cbv zeta. rewrite Hno by lia.
    rewrite (IH quedan prefix (con_nonce bloque nonce) (nonce + 1)).
    + replace (nonce + 1 + Z.of_nat k) with (nonce + Z.of_nat (S k)) by lia.
      f_equal. rewrite (seqZ_cons nonce) by lia. do 2 f_equal; lia.
    + lia.
    + replace (nonce + 1 + Z.of_nat k) with (nonce + Z.of_nat (S k)) by lia. exact Hok.
    + intros j Hj. apply (Hno j). lia.
Qed.

(** Every search either runs out or has a first nonce that meets the
    target. *)
Lemma agotado_o_primer_acierto (bloque : Cabecera) :
  agotado bloque \/ exists n, primer_acierto bloque n.
Proof.
  assert (forall m : nat,
            (forall j, 0 <= j < Z.of_nat m ->
               Js.startsWith (calcularHashBloque (con_nonce bloque j))
                             (Js.repeat 48 (difficulty bloque)) = false)
            \/ exists n, 0 <= n < Z.of_nat m /\
                 Js.startsWith (calcularHashBloque (con_nonce bloque n))
                               (Js.repeat 48 (difficulty bloque)) = true /\
                 forall j, 0 <= j < n ->
                   Js.startsWith (calcularHashBloque (con_nonce bloque j))
                                 (Js.repeat 48 (difficulty bloque)) = false) as H.
  { induction m as [|m [IH|(n & Hn & Hok & Hno)]].
    - left. intros j Hj. lia.
    - destruct (Js.startsWith (calcularHashBloque (con_nonce bloque (Z.of_nat m)))
                  (Js.repeat 48 (difficulty bloque))) eqn:E.
      + right. exists (Z.of_nat m). split; [lia|]. split; [exact E|exact IH].
      + left. intros j Hj. destruct (decide (j = Z.of_nat m)) as [->|Hne]; [exact E|].
        apply IH. lia.
    - right. exists n. split; [lia|]. split; assumption. }
  destruct (H (Z.to_nat maxIteraciones)) as [Hall|(n & Hn & Hok & Hno)].
  - left. intros n Hn. apply Hall. rewrite Z2Nat.id by (unfold maxIteraciones; lia). exact Hn.
  - right. exists n. rewrite Z2Nat.id in Hn by (unfold maxIteraciones; lia).
    split; [exact Hn|]. split; assumption.
Qed.

Lemma calcularProofOfWork_traza_primer_acierto (bloque : Cabecera) (n : Z) :
  primer_acierto bloque n ->
  calcularProofOfWork_traza bloque =
  ({| cabecera := con_nonce bloque n;
      hash := calcularHashBloque (con_nonce bloque n) |}, seqZ 0 (n + 1)).
Proof.
  intros (Hn & Hok & Hno).
  unfold calcularProofOfWork_traza.
  rewrite (minar_primer_acierto (Z.to_nat n) (Z.to_nat maxIteraciones)
             (Js.repeat 48 (difficulty bloque)) bloque 0 []).
  - rewrite Nat2Z.inj_succ, !Z2Nat.id by lia.
    replace (0 + n) with n by lia. replace (Z.succ n) with (n + 1) by lia. reflexivity.
  - apply Z2Nat.inj_lt; lia.
  - rewrite Z2Nat.id by lia. replace (0 + n) with n by lia. exact Hok.
  - intros j Hj. apply Hno. rewrite Z2Nat.id in Hj by lia. lia.
Qed.

(** The generator of the design note returns the least value from
    [current] on that the primality test does not report prime, whenever
    there is one within the fuel. *)
Lemma saltar_primos_minimo (is_prime : Z -> bool) (fuel : nat) : forall current m,
  current <= m -> is_prime m = false -> (Z.to_nat (m - current) < fuel)%nat ->
  exists v, Nonces.saltar_primos is_prime fuel current = Some v /\
            current <= v <= m /\ is_prime v = false /\
            forall j, current <= j < v -> is_prime j = true.
Proof.
  induction fuel as [|fuel IH]; intros current m Hm Hp Hf; [lia|].
  simpl. destruct (is_prime current) eqn:E.
  - assert (current <> m) by congruence.
    destruct (IH (current + 1) m ltac:(lia) Hp ltac:(lia)) as (v & Hv & Hr & Hnp & Hmin).
    exists v. split; [exact Hv|]. split; [lia|]. split; [exact Hnp|].
    intros j Hj. destruct (decide (j = current)) as [->|Hne]; [exact E|].
    apply Hmin. lia.
  - exists current. split; [reflexivity|]. split; [lia|]. split; [exact E|].
    intros j Hj. lia.
Qed.

(** C3, amended: in the script the search computes a hash for the
    consecutive integers 0, 1, 2, ... (no value is skipped, prime or not)
    and stops at the first whose hash meets the target, which becomes the
    nonce of the block; when none of the 1000000 values meets it, all are
    tried and the block keeps the last one. With a difficulty of at most
    56, as shipped, nonce 0 is the only value tried. A generator that skips
    primes exists only as [get_next_nonce] in the design note, which the
    script does not call: from [current] it returns the least greater value
    that the primality test does not report prime, whenever there is one
    (after [reset(0)] that is 1, not 0). *)
Theorem mineria_nonces_consecutivos (bloque : Cabecera)
    (is_prime : Z -> bool) (current m : Z) :
  (exists k : Z,
     1 <= k <= maxIteraciones /\
     nonces_probados bloque = seqZ 0 k /\
     nonce (calcularProofOfWork bloque) = k - 1 /\
     (forall j, 0 <= j < k - 1 ->
        Js.startsWith (calcularHashBloque (con_nonce bloque j))
                      (Js.repeat 48 (difficulty bloque)) = false) /\
     (primer_acierto bloque (k - 1) \/ (agotado bloque /\ k = maxIteraciones)) /\
     ((difficulty bloque <= 56)%nat -> k = 1) /\
     (agotado bloque -> k = maxIteraciones)) /\
  (current < m -> is_prime m = false ->
   exists v,
     Nonces.get_next_nonce is_prime (Z.to_nat (m - current)) current = Some v /\
     current < v <= m /\ is_prime v = false /\
     forall j, current < j < v -> is_prime j = true).
Proof.
  split.
  - destruct (agotado_o_primer_acierto bloque) as [Ha|(n & Hn)].
    + exists maxIteraciones.
      pose proof (calcularProofOfWork_traza_agotado bloque Ha) as E.
      unfold nonces_probados, calcularProofOfWork. rewrite E. simpl.
      split; [unfold maxIteraciones; lia|]. split; [reflexivity|].
      split; [reflexivity|].
      split; [intros j Hj; apply Ha; lia|].
      split; [right; split; [exact Ha|reflexivity]|].
      split; [|reflexivity].
      intros Hd. exfalso.
      pose proof (Ha 0 ltac:(unfold maxIteraciones; lia)) as H0.
      unfold calcularHashBloque in H0. rewrite sha256Sync_startsWith in H0 by exact Hd.
      discriminate.
    + exists (n + 1).
      pose proof (calcularProofOfWork_traza_primer_acierto bloque n Hn) as E.
      destruct Hn as (Hr & Hok & Hno).
      unfold nonces_probados, calcularProofOfWork. rewrite E. simpl.
      replace (n + 1 - 1) with n by lia.
      split; [lia|]. split; [reflexivity|]. split; [reflexivity|].
      split; [exact Hno|].
      split; [left; split; [exact Hr|split; assumption]|].
      split.
      * intros Hd. destruct (decide (n = 0)) as [->|Hne]; [reflexivity|]. exfalso.
        pose proof (Hno 0 ltac:(lia)) as H0.
        unfold calcularHashBloque in H0. rewrite sha256Sync_startsWith in H0 by exact Hd.
        discriminate.
      * intros Ha. exfalso. rewrite (Ha n Hr) in Hok. discriminate.
  - intros Hm Hp. unfold Nonces.get_next_nonce.
    destruct (saltar_primos_minimo is_prime (Z.to_nat (m - current)) (current + 1) m
                ltac:(lia) Hp ltac:(lia)) as (v & Hv & Hr & Hnp & Hmin).
    exists v. split; [exact Hv|]. split; [lia|]. split; [exact Hnp|].
    intros j Hj. apply Hmin. lia.
Qed.

Lemma calcularProofOfWork_agotado (bloque : Cabecera) :
  agotado bloque ->
  cabecera (calcularProofOfWork bloque) = con_nonce bloque (maxIteraciones - 1) /\
  Js.startsWith (hash (calcularProofOfWork bloque))
                (Js.repeat 48 (difficulty (calcularProofOfWork bloque))) = false.
Proof.
  intros Ha. unfold calcularProofOfWork.
  rewrite (calcularProofOfWork_traza_agotado bloque Ha). simpl.
  split; [reflexivity|]. apply (Ha (maxIteraciones - 1)). unfold maxIteraciones. lia.
Qed.

(** C4, as stated, fails: with a difficulty of 65 no hash meets the target,
    the search runs out, and the block it emits has no [pow_incomplete]
    property. *)
Lemma bloque_agotado_sin_marca :
  agotado (Ejemplos.nuevo 65) /\
  nonces_probados (Ejemplos.nuevo 65) = seqZ 0 maxIteraciones /\
  pow_incomplete (calcularProofOfWork (Ejemplos.nuevo 65)) = JSON.Undefined /\
  pow_incomplete (calcularProofOfWork (Ejemplos.nuevo 65)) <> JSON.Bool true.
Proof.
  assert (agotado (Ejemplos.nuevo 65)) as Ha by (apply agotado_65; simpl; lia).
  split; [exact Ha|]. split.
  - unfold nonces_probados. rewrite (calcularProofOfWork_traza_agotado _ Ha). reflexivity.
  - rewrite pow_incomplete_undefined. split; [reflexivity|discriminate].
Qed.

(** C4, amended: when the search runs out, the block is emitted with the
    last nonce tried, 999999, and the hash computed for it, its other
    fields as given and no [pow_incomplete] property. That hash does not
    meet the target, so [validarBlockchain], on a chain that was valid
    before the block was pushed, checks the link of the block first and
    then answers that its proof of work is invalid. *)
Theorem pow_agotado_emite_ultimo_hash (bloque : Cabecera) :
  agotado bloque ->
  let b := calcularProofOfWork bloque in
  cabecera b = con_nonce bloque (maxIteraciones - 1) /\
  nonce b = 999999 /\
  hash b = calcularHashBloque b /\
  Js.startsWith (hash b) (Js.repeat 48 (difficulty b)) = false /\
  pow_incomplete b = JSON.Undefined /\
  forall (blockchain : list Bloque) (anterior : Bloque) mensaje total,
    last blockchain = Some anterior ->
    validarBlockchain blockchain = Valida mensaje total ->
    validarBlockchain (blockchain ++ [b]) =
    if decide (previousHash b = hash anterior)
    then error_pow (length blockchain)
    else error_previousHash (length blockchain).
Proof.
  intros Ha b.
  assert (b = {| cabecera := con_nonce bloque (maxIteraciones - 1);
                 hash := calcularHashBloque (con_nonce bloque (maxIteraciones - 1)) |})
    as Hb.
  { subst b. unfold calcularProofOfWork.
    rewrite (calcularProofOfWork_traza_agotado bloque Ha). reflexivity. }
  assert (Js.startsWith (hash b) (Js.repeat 48 (difficulty b)) = false) as Hpow.
  { rewrite Hb. simpl. apply (Ha (maxIteraciones - 1)). unfold maxIteraciones. lia. }
  split; [rewrite Hb; reflexivity|]. split; [rewrite Hb; reflexivity|].
  split; [rewrite Hb; reflexivity|]. split; [exact Hpow|].
  split; [reflexivity|].
  intros blockchain anterior mensaje total Hl Hv.
  rewrite (validarBlockchain_snoc blockchain b anterior mensaje total Hl Hv).
  unfold comprobarBloque.
  destruct (decide (previousHash b = hash anterior)) as [Hp|Hp].
  - destruct (decide (previousHash b ≠ hash anterior)); [contradiction|].
    cbv zeta.
    destruct (decide (hash b ≠ calcularHashBloque b)) as [Hh|_].
    + exfalso. apply Hh. rewrite Hb. reflexivity.
    + rewrite Hpow. reflexivity.
  - destruct (decide (previousHash b ≠ hash anterior)); [reflexivity|contradiction].
Qed.

Lemma pow_agotado_emite_ultimo_hash_witness :
  let b := calcularProofOfWork (Ejemplos.nuevo 65) in
  cabecera b = con_nonce (Ejemplos.nuevo 65) (maxIteraciones - 1) /\
  nonce b = 999999 /\
  hash b = calcularHashBloque b /\
  Js.startsWith (hash b) (Js.repeat 48 (difficulty b)) = false /\
  pow_incomplete b = JSON.Undefined /\
  forall (blockchain : list Bloque) (anterior : Bloque) mensaje total,
    last blockchain = Some anterior ->
    validarBlockchain blockchain = Valida mensaje total ->
    validarBlockchain (blockchain ++ [b]) =
    if decide (previousHash b = hash anterior)
    then error_pow (length blockchain)
    else error_previousHash (length blockchain).
Proof.
  apply (pow_agotado_emite_ultimo_hash (Ejemplos.nuevo 65)).
  apply agotado_65. simpl. lia.
Defined.

(** A block appended to a valid chain with an exhausted search is the first
    block the validation rejects, for its proof of work. *)
Lemma agregarBloque_agotado_invalida cfg ahora data st nuevo bloque st' mensaje total :
  nuevoBloque cfg ahora data (blockchain st) = inr nuevo ->
  agotado nuevo ->
  agregarBloque cfg ahora data st = inr (bloque, st') ->
  validarBlockchain (blockchain st) = Valida mensaje total ->
  validarBlockchain (blockchain st') = error_pow (length (blockchain st)).
Proof.
  intros Hn Ha Hag Hv.
  unfold agregarBloque in Hag. rewrite Hn in Hag. injection Hag as <- <-.
  unfold nuevoBloque in Hn. rewrite ultimo_last in Hn.
  destruct (last (blockchain st)) as [anterior|] eqn:Hl; [|discriminate].
  injection Hn as <-.
  destruct (calcularProofOfWork_agotado _ Ha) as (Hc & Hpow).
  simpl blockchain.
  rewrite (validarBlockchain_snoc _ _ anterior mensaje total Hl Hv).
  unfold comprobarBloque. rewrite Hc. simpl previousHash.
  destruct (decide (hash anterior ≠ hash anterior)); [contradiction|].
  cbv zeta. rewrite <- Hc.
  destruct (decide (hash _ ≠ calcularHashBloque _)) as [Hh|_].
  - exfalso. apply Hh. apply calcularProofOfWork_hash.
  - rewrite Hpow. reflexivity.
Qed.

(** C9: [sha256Sync] returns 64 hexadecimal characters of which the first
    56 are [0], whatever the string; hence a block whose difficulty is at
    most 56 is mined at the first nonce tried: the search computes one
    hash, for nonce 0, and returns the block with that nonce and hash,
    which meets the target. *)
Theorem sha256Sync_56_ceros (str : Js.cadena) (bloque : Cabecera) :
  (length (sha256Sync str) = 64%nat /\
   Forall es_hex (sha256Sync str) /\
   take 56 (sha256Sync str) = replicate 56 48) /\
  ((difficulty bloque <= 56)%nat ->
   nonces_probados bloque = [0] /\
   calcularProofOfWork bloque =
     {| cabecera := con_nonce bloque 0;
        hash := calcularHashBloque (con_nonce bloque 0) |} /\
   nonce (calcularProofOfWork bloque) = 0 /\
   Js.startsWith (hash (calcularProofOfWork bloque))
                 (Js.repeat 48 (difficulty bloque)) = true).
Proof.
  split.
  - split; [apply sha256Sync_longitud|].
    split; [apply sha256Sync_hex|apply sha256Sync_ceros].
  - intros Hd. unfold nonces_probados, calcularProofOfWork.
    rewrite (calcularProofOfWork_traza_56 bloque Hd). simpl.
    split; [reflexivity|]. split; [reflexivity|]. split; [reflexivity|].
    apply sha256Sync_startsWith. exact Hd.
Qed.

Lemma sha256Sync_56_ceros_witness :
  (difficulty (Ejemplos.nuevo 56) <= 56)%nat /\
  nonces_probados (Ejemplos.nuevo 56) = [0] /\
  nonce (calcularProofOfWork (Ejemplos.nuevo 56)) = 0.
Proof.
  split; [simpl; lia|].
  destruct (sha256Sync_56_ceros [] (Ejemplos.nuevo 56)) as [_ H].
  destruct (H ltac:(simpl; lia)) as (H1 & _ & H3 & _).
  split; [exact H1|exact H3].
Defined.

End Mineria.

(** ** The input of the block hash *)

Section EntradaDelHash.

(** The string that is hashed lists [index], [timestamp], [data],
    [previousHash] and [nonce], in this order; an [undefined] payload is
    left out by [JSON.stringify]. *)
Lemma bloqueString_forma (bloque : Cabecera) :
  bloqueString bloque =
  [123] ++ (JSON.citar (Js.lit "index") ++ [58] ++ Js.toString 10 (index bloque))
  ++ [44] ++ (JSON.citar (Js.lit "timestamp") ++ [58] ++ JSON.citar (timestamp bloque))
  ++ [44]
  ++ (if JSON.es_undefined (data bloque) then []
      else (JSON.citar (Js.lit "data") ++ [58] ++ JSON.serializar (data bloque)) ++ [44])
  ++ (JSON.citar (Js.lit "previousHash") ++ [58] ++ JSON.citar (previousHash bloque))
  ++ [44] ++ (JSON.citar (Js.lit "nonce") ++ [58] ++ Js.toString 10 (nonce bloque))
  ++ [125].
Proof.
  unfold bloqueString.
  destruct (data bloque) as [| |[|]| | | |];
    cbn [JSON.serializar JSON.unir JSON.es_undefined];
    rewrite <- ?app_assoc; reflexivity.
Qed.

Lemma crearBloqueGenesis_hash cfg ahora :
  hash (crearBloqueGenesis cfg ahora) = calcularHashBloque (crearBloqueGenesis cfg ahora).
Proof. reflexivity. Qed.

(** C5, as stated, fails: two block literals that differ in [difficulty]
    alone (4 and 5) have the same hash input and the same hash. *)
Lemma hash_ignora_difficulty :
  difficulty (Ejemplos.nuevo 4) <> difficulty (Ejemplos.nuevo 5) /\
  con_difficulty (Ejemplos.nuevo 4) 5 = Ejemplos.nuevo 5 /\
  bloqueString (Ejemplos.nuevo 4) = bloqueString (Ejemplos.nuevo 5) /\
  calcularHashBloque (Ejemplos.nuevo 4) = calcularHashBloque (Ejemplos.nuevo 5).
Proof.
  split; [simpl; lia|]. split; [reflexivity|]. split; reflexivity.
Qed.

(** C5, amended: the stored hash of the genesis block and of every mined
    block is the digest of the block's [index], [timestamp], [data],
    [previousHash] and [nonce], serialized in this order; [difficulty] is
    not part of the input, so two blocks that agree on those five fields
    have the same hash input and the same recomputed hash, whatever their
    [difficulty]. *)
Theorem hash_cubre_cinco_campos (cfg : Config) (ahora : Js.cadena)
    (bloque b1 b2 : Cabecera) :
  index b1 = index b2 -> timestamp b1 = timestamp b2 -> data b1 = data b2 ->
  previousHash b1 = previousHash b2 -> nonce b1 = nonce b2 ->
  hash (crearBloqueGenesis cfg ahora) = calcularHashBloque (crearBloqueGenesis cfg ahora) /\
  hash (calcularProofOfWork bloque) = calcularHashBloque (calcularProofOfWork bloque) /\
  bloqueString b1 = bloqueString b2 /\
  calcularHashBloque b1 = calcularHashBloque b2.
Proof.
  intros Hi Ht Hd Hp Hn.
  split; [apply crearBloqueGenesis_hash|].
  split; [apply calcularProofOfWork_hash|].
  assert (bloqueString b1 = bloqueString b2) as E.
  { unfold bloqueString. rewrite Hi, Ht, Hd, Hp, Hn. reflexivity. }
  split; [exact E|]. unfold calcularHashBloque. rewrite E. reflexivity.
Qed.

Lemma hash_cubre_cinco_campos_witness :
  hash (crearBloqueGenesis CONFIG Ejemplos.ahora)
  = calcularHashBloque (crearBloqueGenesis CONFIG Ejemplos.ahora) /\
  hash (calcularProofOfWork (Ejemplos.nuevo 4))
  = calcularHashBloque (calcularProofOfWork (Ejemplos.nuevo 4)) /\
  bloqueString (Ejemplos.nuevo 4) = bloqueString (Ejemplos.nuevo 5) /\
  calcularHashBloque (Ejemplos.nuevo 4) = calcularHashBloque (Ejemplos.nuevo 5).
Proof.
  apply (hash_cubre_cinco_campos CONFIG Ejemplos.ahora (Ejemplos.nuevo 4)
           (Ejemplos.nuevo 4) (Ejemplos.nuevo 5)); reflexivity.
Defined.

End EntradaDelHash.

(** ** The download registry *)

Section Registro.

Variable sha256File : list Z -> Js.cadena.

(** A completed download writes its entry under the generated file name,
    whether or not the block that follows can be appended. *)
Lemma descargarDocumento_registro cfg reloj documento expediente blob st :
  hashRegistry
    (fst (Descargador.descargarDocumento sha256File cfg reloj documento expediente
            (Onload blob) st))
  = <[ Descargador.generarNombreArchivo documento expediente (date_now reloj) :=
       Descargador.entradaRegistro documento expediente (sha256File blob)
         (Z.of_nat (length blob)) (iso_registro reloj) ]> (hashRegistry st).
Proof.
  unfold Descargador.descargarDocumento.
  destruct (usarBlockchain cfg); [|reflexivity].
  destruct (agregarBloque _ _ _ _) as [e|[b st']] eqn:E; [reflexivity|].
  apply agregarBloque_inr in E as (anterior & _ & _ & ->). reflexivity.
Qed.

(** A failed request leaves the registry as it was. *)
Lemma descargarDocumento_registro_fallo cfg reloj documento expediente respuesta st :
  (forall blob, respuesta <> Onload blob) ->
  hashRegistry
    (fst (Descargador.descargarDocumento sha256File cfg reloj documento expediente
            respuesta st))
  = hashRegistry st.
Proof.
  intros H. destruct respuesta as [blob| |]; [|reflexivity|reflexivity].
  exfalso. apply (H blob). reflexivity.
Qed.

End Registro.

Section RegistroPorNombre.

Lemma size_dos_entradas (n1 n2 : list Z) (x1 x2 : EntradaRegistro)
    (registro : gmap (list Z) EntradaRegistro) :
  n1 <> n2 -> registro !! n1 = None -> registro !! n2 = None ->
  size (<[n2 := x2]> (<[n1 := x1]> registro)) = S (S (size registro)).
Proof.
  intros Hne H1 H2.
  rewrite map_size_insert_None by (rewrite lookup_insert_ne by exact Hne; exact H2).
  rewrite map_size_insert_None by exact H1. reflexivity.
Qed.

(** The mass downloader writes its registry the same way. *)
Lemma MassDownloader_onload_registro (sha256 : list Z -> Js.cadena) ahora
    iso_registro iso_archivo documento expediente blob subida st :
  MassDownloader.hashRegistry
    (fst (MassDownloader.onload sha256 ahora iso_registro iso_archivo documento
            expediente blob subida st))
  = <[ Descargador.generarNombreArchivo documento expediente ahora :=
       {| reg_hash := sha256 blob; reg_tamaño := Z.of_nat (length blob);
          reg_url := url documento; reg_expediente := numero expediente;
          reg_timestamp := iso_registro |} ]> (MassDownloader.hashRegistry st).
Proof. unfold MassDownloader.onload. destruct subida; reflexivity. Qed.

(** C6, as stated, fails: the same bytes downloaded from two addresses, and
    from one address at two times, leave two entries in a registry that was
    empty, both with the hash of those bytes. *)
Lemma registro_una_entrada_por_descarga :
  url Ejemplos.documento_a <> url Ejemplos.documento_b /\
  forall sha256File : list Z -> Js.cadena,
    let descarga reloj documento st :=
      fst (Descargador.descargarDocumento sha256File CONFIG reloj documento
             Ejemplos.expediente (Onload Ejemplos.contenido) st) in
    let st1 := descarga (Ejemplos.reloj 1000) Ejemplos.documento_a Ejemplos.ESTADO_genesis in
    let st2 := descarga (Ejemplos.reloj 2000) Ejemplos.documento_b st1 in
    let st2' := descarga (Ejemplos.reloj 2000) Ejemplos.documento_a st1 in
    hashRegistry Ejemplos.ESTADO_genesis = ∅ /\
    size (hashRegistry st2) = 2%nat /\
    size (hashRegistry st2') = 2%nat /\
    (forall nombre x, hashRegistry st2 !! nombre = Some x ->
                      reg_hash x = sha256File Ejemplos.contenido).
Proof.
  split; [vm_compute; discriminate|].
  intros sha256File descarga st1 st2 st2'.
  split; [reflexivity|].
  subst st2 st2' st1 descarga. cbv beta.
  rewrite !descargarDocumento_registro.
  change (hashRegistry Ejemplos.ESTADO_genesis) with (∅ : gmap (list Z) EntradaRegistro).
  split; [|split].
  - rewrite size_dos_entradas; [reflexivity|vm_compute; discriminate|reflexivity|reflexivity].
  - rewrite size_dos_entradas; [reflexivity|vm_compute; discriminate|reflexivity|reflexivity].
  - intros nombre x Hx.
    apply lookup_insert_Some in Hx as [[_ <-]|[_ Hx]]; [reflexivity|].
    apply lookup_insert_Some in Hx as [[_ <-]|[_ Hx]]; [reflexivity|].
    rewrite lookup_empty in Hx. discriminate.
Qed.

(** C6, amended: the hash of a download is a function of its bytes, so
    identical payloads get identical hashes; the registry, however, is keyed
    by the generated file name (case number, document type, [Date.now()]
    and extension) and not by the hash. Two completed downloads of the same
    bytes write the entries of their two file names; when the names differ
    both entries are present, with the same hash and each with its own
    address, and a registry that held neither name grows by two. *)
Theorem registro_por_nombre_de_archivo (sha256File : list Z -> Js.cadena)
    (cfg : Config) (reloj1 reloj2 : Reloj) (documento1 documento2 : Documento)
    (expediente1 expediente2 : Expediente) (blob : list Z) (st : Estado) :
  let nombre1 := Descargador.generarNombreArchivo documento1 expediente1 (date_now reloj1) in
  let nombre2 := Descargador.generarNombreArchivo documento2 expediente2 (date_now reloj2) in
  let st1 := fst (Descargador.descargarDocumento sha256File cfg reloj1 documento1
                    expediente1 (Onload blob) st) in
  let st2 := fst (Descargador.descargarDocumento sha256File cfg reloj2 documento2
                    expediente2 (Onload blob) st1) in
  nombre1 <> nombre2 ->
  (exists x1 x2,
     hashRegistry st2 !! nombre1 = Some x1 /\ hashRegistry st2 !! nombre2 = Some x2 /\
     reg_hash x1 = sha256File blob /\ reg_hash x2 = sha256File blob /\
     reg_url x1 = url documento1 /\ reg_url x2 = url documento2) /\
  hashRegistry st2 =
    <[nombre2 := Descargador.entradaRegistro documento2 expediente2 (sha256File blob)
                   (Z.of_nat (length blob)) (iso_registro reloj2)]>
      (<[nombre1 := Descargador.entradaRegistro documento1 expediente1 (sha256File blob)
                      (Z.of_nat (length blob)) (iso_registro reloj1)]> (hashRegistry st)) /\
  (hashRegistry st !! nombre1 = None -> hashRegistry st !! nombre2 = None ->
   size (hashRegistry st2) = S (S (size (hashRegistry st)))).
Proof.
  intros nombre1 nombre2 st1 st2 Hne.
  assert (hashRegistry st2 =
    <[nombre2 := Descargador.entradaRegistro documento2 expediente2 (sha256File blob)
                   (Z.of_nat (length blob)) (iso_registro reloj2)]>
      (<[nombre1 := Descargador.entradaRegistro documento1 expediente1 (sha256File blob)
                      (Z.of_nat (length blob)) (iso_registro reloj1)]> (hashRegistry st)))
    as E.
  { subst st2 st1. rewrite !descargarDocumento_registro. reflexivity. }
  split; [|split; [exact E|]].
  - eexists _, _. rewrite E.
    split; [rewrite lookup_insert_ne by congruence; apply lookup_insert_eq|].
    split; [apply lookup_insert_eq|]. repeat split.
  - intros H1 H2. rewrite E. apply size_dos_entradas; assumption.
Qed.

Lemma registro_por_nombre_de_archivo_witness :
  let nombre1 := Descargador.generarNombreArchivo Ejemplos.documento_a
                   Ejemplos.expediente 1000 in
  let nombre2 := Descargador.generarNombreArchivo Ejemplos.documento_b
                   Ejemplos.expediente 2000 in
  let st1 := fst (Descargador.descargarDocumento sha256Sync CONFIG (Ejemplos.reloj 1000)
                    Ejemplos.documento_a Ejemplos.expediente
                    (Onload Ejemplos.contenido) Ejemplos.ESTADO_genesis) in
  let st2 := fst (Descargador.descargarDocumento sha256Sync CONFIG (Ejemplos.reloj 2000)
                    Ejemplos.documento_b Ejemplos.expediente
                    (Onload Ejemplos.contenido) st1) in
  nombre1 <> nombre2 /\
  size (hashRegistry st2) = 2%nat.
Proof.
  assert (Descargador.generarNombreArchivo Ejemplos.documento_a Ejemplos.expediente 1000
          <> Descargador.generarNombreArchivo Ejemplos.documento_b Ejemplos.expediente 2000)
    as Hne by (vm_compute; discriminate).
  split; [exact Hne|].
  destruct (registro_por_nombre_de_archivo sha256Sync CONFIG
              (Ejemplos.reloj 1000) (Ejemplos.reloj 2000)
              Ejemplos.documento_a Ejemplos.documento_b
              Ejemplos.expediente Ejemplos.expediente
              Ejemplos.contenido Ejemplos.ESTADO_genesis Hne) as (_ & _ & Hsize).
  apply Hsize; reflexivity.
Defined.

End RegistroPorNombre.

(** ** Checks of the embedding on concrete inputs *)

Section Comprobaciones.

Example sha256Sync_vacio : sha256Sync [] = Js.repeat 48 64.
Proof. reflexivity. Qed.

(** The accumulator of ["abc"] is 96354, 17862 in hexadecimal. *)
Example sha256Sync_abc :
  sha256Sync (Js.lit "abc") = Js.repeat 48 59 ++ Js.lit "17862".
Proof. vm_compute. reflexivity. Qed.

Example serializar_ej :
  JSON.serializar
    (JSON.Obj [(Js.lit "a", JSON.Num (-12)); (Js.lit "u", JSON.Undefined);
               (Js.lit "b", JSON.Arr [JSON.Str [120; 10; 34]; JSON.Undefined;
                                      JSON.Bool true])])
  = [123; 34; 97; 34; 58] ++ Js.lit "-12,"
    ++ [34; 98; 34; 58; 91; 34; 120; 92; 110; 92; 34; 34]
    ++ Js.lit ",null,true]}".
Proof. vm_compute. reflexivity. Qed.

Example hash_genesis :
  hash (crearBloqueGenesis CONFIG Ejemplos.ahora) = Js.repeat 48 56 ++ Js.lit "3e26fb71".
Proof. vm_compute. reflexivity. Qed.

(** Each of the five hashed fields reaches the hash input: changing one
    of them in the literal appended after the genesis block changes the
    string that is hashed. *)
Example bloqueString_sensible :
  let b := Ejemplos.nuevo 4 in
  let con i t d p n :=
    {| index := i; timestamp := t; data := d; previousHash := p; nonce := n;
       difficulty := difficulty b |} in
  bloqueString (con 2 (timestamp b) (data b) (previousHash b) (nonce b)) <> bloqueString b /\
  bloqueString (con (index b) [] (data b) (previousHash b) (nonce b)) <> bloqueString b /\
  bloqueString (con (index b) (timestamp b) JSON.Null (previousHash b) (nonce b))
    <> bloqueString b /\
  bloqueString (con (index b) (timestamp b) (data b) [] (nonce b)) <> bloqueString b /\
  bloqueString (con (index b) (timestamp b) (data b) (previousHash b) 7) <> bloqueString b.
Proof. cbv zeta. repeat split; vm_compute; discriminate. Qed.

Example generarNombreArchivo_ej :
  Descargador.generarNombreArchivo Ejemplos.documento_a Ejemplos.expediente 1000
  = Js.lit "Varios_1_2025_SENTENCIA_1000.pdf".
Proof. vm_compute. reflexivity. Qed.

Example ESTADO_tres_valida :
  es_valida (validarBlockchain (blockchain Ejemplos.ESTADO_tres)) = true.
Proof. vm_compute. reflexivity. Qed.

Example miller_rabin_ej :
  Primos.is_prime_miller_rabin 97 [2; 3; 5; 7; 11] = true /\
  Primos.is_prime_miller_rabin 91 [2; 3; 5; 7; 11] = false.
Proof. split; vm_compute; reflexivity. Qed.

End Comprobaciones.

(** * Further properties of the code *)

(** ** The nonce that mining returns *)

Section PrimerAcierto.

(** X1: [calcularProofOfWork] returns the block with the least nonce whose
    hash meets the target: when [n] is the first nonce below 1000000 that
    does, the search computes a hash for 0, ..., [n] and for no other value,
    and the block carries nonce [n], the hash computed for it, which starts
    with the required zeros, and the other fields of the literal. *)
Theorem calcularProofOfWork_primer_acierto (bloque : Cabecera) (n : Z) :
  primer_acierto bloque n ->
  calcularProofOfWork bloque =
    {| cabecera := con_nonce bloque n;
       hash := calcularHashBloque (con_nonce bloque n) |} /\
  nonces_probados bloque = seqZ 0 (n + 1) /\
  Js.startsWith (hash (calcularProofOfWork bloque))
                (Js.repeat 48 (difficulty (calcularProofOfWork bloque))) = true.
Proof.
  intros (Hn & Hok & Hno).
  assert (calcularProofOfWork_traza bloque =
          ({| cabecera := con_nonce bloque n;
              hash := calcularHashBloque (con_nonce bloque n) |}, seqZ 0 (n + 1))) as E.
  { unfold calcularProofOfWork_traza.
    rewrite (minar_primer_acierto (Z.to_nat n) (Z.to_nat maxIteraciones)
               (Js.repeat 48 (difficulty bloque)) bloque 0 []).
    - rewrite Nat2Z.inj_succ, !Z2Nat.id by lia.
      replace (0 + n) with n by lia. replace (Z.succ n) with (n + 1) by lia. reflexivity.
    - apply Z2Nat.inj_lt; lia.
    - rewrite Z2Nat.id by lia. replace (0 + n) with n by lia. exact Hok.
    - intros j Hj. apply Hno. rewrite Z2Nat.id in Hj by lia. lia. }
  unfold calcularProofOfWork, nonces_probados. rewrite E. simpl.
  split; [reflexivity|]. split; [reflexivity|exact Hok].
Qed.

Lemma calcularProofOfWork_primer_acierto_witness :
  calcularProofOfWork Muestras.nuevo_57 =
    {| cabecera := con_nonce Muestras.nuevo_57 1;
       hash := calcularHashBloque (con_nonce Muestras.nuevo_57 1) |} /\
  nonces_probados Muestras.nuevo_57 = seqZ 0 (1 + 1) /\
  Js.startsWith (hash (calcularProofOfWork Muestras.nuevo_57))
                (Js.repeat 48 (difficulty (calcularProofOfWork Muestras.nuevo_57))) = true.
Proof.
  apply (calcularProofOfWork_primer_acierto Muestras.nuevo_57 1).
  split; [unfold maxIteraciones; lia|]. split; [vm_compute; reflexivity|].
  intros j Hj. assert (j = 0) as -> by lia. vm_compute. reflexivity.
Defined.

End PrimerAcierto.

(** ** What the validation detects *)

Section Deteccion.

Lemma valida_veredictos (blockchain : list Bloque) :
  es_valida (validarBlockchain blockchain) = true ->
  forall j, (1 <= j)%nat -> veredicto blockchain j = None.
Proof.
  intros Hv.
  pose proof (validarDesde_primera (length blockchain - 1) blockchain 1
                ltac:(lia) eq_refl ltac:(intros; lia)) as H.
  unfold validarBlockchain in Hv.
  destruct (validarDesde blockchain (length blockchain - 1) 1) as [m n|e k|ex];
    try discriminate.
  destruct H as [_ H]. exact H.
Qed.

Lemma veredictos_valida (blockchain : list Bloque) :
  (forall j, (1 <= j)%nat -> veredicto blockchain j = None) ->
  es_valida (validarBlockchain blockchain) = true.
Proof.
  intros Hn.
  pose proof (validarDesde_primera (length blockchain - 1) blockchain 1
                ltac:(lia) eq_refl ltac:(intros; lia)) as H.
  unfold validarBlockchain.
  destruct (validarDesde blockchain (length blockchain - 1) 1) as [m n|e k|ex].
  - reflexivity.
  - destruct H as (Hk & Hv & _). rewrite Hn in Hv by lia. discriminate.
  - contradiction.
Qed.

(** The answer is the verdict on the first block that has one. *)
Lemma primera_violacion_es (blockchain : list Bloque) i v :
  (1 <= i)%nat -> veredicto blockchain i = Some v ->
  (forall j, (1 <= j < i)%nat -> veredicto blockchain j = None) ->
  validarBlockchain blockchain = v.
Proof.
  intros Hi Hv Hmin.
  pose proof (validarDesde_primera (length blockchain - 1) blockchain 1
                ltac:(lia) eq_refl ltac:(intros; lia)) as H.
  unfold validarBlockchain.
  destruct (validarDesde blockchain (length blockchain - 1) 1) as [m n|e k|ex].
  - destruct H as [_ H]. rewrite H in Hv by lia. discriminate.
  - destruct H as (Hk & Hvk & Hmink).
    assert (k = i) as ->.
    { destruct (decide (k < i)%nat) as [Hlt|Hge].
      - rewrite Hmin in Hvk by lia. discriminate.
      - destruct (decide (i < k)%nat) as [Hlt|Hge'].
        + rewrite Hmink in Hv by lia. discriminate.
        + lia. }
    rewrite Hvk in Hv. injection Hv as <-. reflexivity.
  - contradiction.
Qed.

(** The verdict on a block looks at that block and at the one before. *)
Lemma veredicto_local (blockchain blockchain' : list Bloque) j :
  blockchain !! j = blockchain' !! j ->
  blockchain !! (j - 1)%nat = blockchain' !! (j - 1)%nat ->
  veredicto blockchain j = veredicto blockchain' j.
Proof. intros H1 H2. unfold veredicto. rewrite H1, H2. reflexivity. Qed.

(** X2: on a chain that [validarBlockchain] accepts, replacing the fields
    of a block after the genesis block so that the hash recomputed from
    them changes, its stored [hash] and [previousHash] kept, is detected:
    the validation names exactly that block, with the message of the
    altered hash. *)
Theorem alteracion_detectada (pre post : list Bloque) (b b' : Bloque) :
  pre <> [] ->
  es_valida (validarBlockchain (pre ++ b :: post)) = true ->
  previousHash b' = previousHash b ->
  hash b' = hash b ->
  calcularHashBloque b' <> calcularHashBloque b ->
  validarBlockchain (pre ++ b' :: post) = error_hash (length pre).
Proof.
  intros Hpre Hv Hp Hh Hne.
  assert (1 <= length pre)%nat as Hlen by (destruct pre; [contradiction|simpl; lia]).
  pose proof (valida_veredictos _ Hv) as Hnone.
  destruct (lookup_lt_is_Some_2 pre (length pre - 1)%nat ltac:(lia)) as [anterior Ha].
  assert (veredicto (pre ++ b :: post) (length pre) = None) as Hb by (apply Hnone; lia).
  unfold veredicto in Hb.
  rewrite (list_lookup_middle pre post b (length pre) eq_refl) in Hb.
  rewrite lookup_app_l, Ha in Hb by lia.
  apply comprobarBloque_None in Hb as (Hlink & Hseal & _).
  apply (primera_violacion_es _ (length pre)); [lia| |].
  - unfold veredicto.
    rewrite (list_lookup_middle pre post b' (length pre) eq_refl).
    rewrite lookup_app_l, Ha by lia.
    unfold comprobarBloque.
    destruct (decide (previousHash b' ≠ hash anterior)) as [Hx|_]; [congruence|].
    cbv zeta.
    destruct (decide (hash b' ≠ calcularHashBloque b')) as [_|Hx]; [reflexivity|].
    apply dec_stable in Hx. congruence.
  - intros j Hj. rewrite <- (Hnone j) by lia.
    apply veredicto_local; rewrite !lookup_app_l by lia; reflexivity.
Qed.

Lemma alteracion_detectada_witness :
  validarBlockchain
    (take 1 (blockchain Ejemplos.ESTADO_tres)
     ++ Ejemplos.alterar_data (Ejemplos.datos "2/2025")
          (default (crearBloqueGenesis CONFIG Ejemplos.ahora)
                   (blockchain Ejemplos.ESTADO_tres !! 1%nat))
     :: drop 2 (blockchain Ejemplos.ESTADO_tres))
  = error_hash (length (take 1 (blockchain Ejemplos.ESTADO_tres))).
Proof.
  apply (alteracion_detectada
           (take 1 (blockchain Ejemplos.ESTADO_tres))
           (drop 2 (blockchain Ejemplos.ESTADO_tres))
           (default (crearBloqueGenesis CONFIG Ejemplos.ahora)
                    (blockchain Ejemplos.ESTADO_tres !! 1%nat))).
  - vm_compute. discriminate.
  - vm_compute. reflexivity.
  - reflexivity.
  - reflexivity.
  - vm_compute. discriminate.
Defined.

(** Blocks that carry the same seal get the same verdicts. *)
Lemma comprobarBloque_mismo_sello i (a a' p p' : Bloque) :
  mismo_sello a a' -> hash p = hash p' ->
  comprobarBloque i a p = comprobarBloque i a' p'.
Proof.
  intros (Hp & Hh & Hd & Hc) Hq. unfold comprobarBloque.
  rewrite Hp, Hh, Hd, Hc, Hq. reflexivity.
Qed.

Lemma validarDesde_Valida (blockchain : list Bloque) quedan : forall i mensaje total,
  validarDesde blockchain quedan i = Valida mensaje total ->
  mensaje = Js.lit "Blockchain v" ++ [225] ++ Js.lit "lida e inmutable" /\
  total = length blockchain.
Proof.
  induction quedan as [|quedan IH]; intros i mensaje total H; simpl in H.
  - injection H as <- <-. split; reflexivity.
  - destruct (blockchain !! i) as [x|]; [|discriminate].
    destruct (blockchain !! (i - 1)%nat) as [y|]; [|discriminate].
    destruct (comprobarBloque i x y) as [v|] eqn:Ec.
    + destruct (comprobarBloque_indice _ _ _ _ Ec) as [e0 ->]. discriminate.
    + eapply IH. exact H.
Qed.

Lemma validarBlockchain_mismo_sello (pre post : list Bloque) (b b' : Bloque) :
  mismo_sello b b' ->
  validarBlockchain (pre ++ b' :: post) = validarBlockchain (pre ++ b :: post).
Proof.
  intros Hs.
  assert (forall j, (1 <= j)%nat ->
            veredicto (pre ++ b' :: post) j = veredicto (pre ++ b :: post) j) as Hver.
  { intros j Hj. unfold veredicto.
    destruct (decide (j = length pre)) as [->|Hne].
    - rewrite !(list_lookup_middle pre post _ (length pre) eq_refl).
      rewrite !lookup_app_l by lia.
      destruct (pre !! (length pre - 1)%nat) as [anterior|]; [|reflexivity].
      symmetry. apply comprobarBloque_mismo_sello; [exact Hs|reflexivity].
    - destruct (decide (j - 1 = length pre)%nat) as [E|Hne'].
      + rewrite E, !(list_lookup_middle pre post _ (length pre) eq_refl).
        rewrite !lookup_app_r by lia.
        replace (j - length pre)%nat with 1%nat by lia. simpl.
        destruct (post !! 0%nat) as [actual|]; [|reflexivity].
        destruct Hs as (_ & Hh & _). unfold comprobarBloque. rewrite Hh. reflexivity.
      + assert (forall (x y : Bloque) k, k <> length pre ->
                  (pre ++ x :: post) !! k = (pre ++ y :: post) !! k) as Hk.
        { intros x y k Hk. destruct (decide (k < length pre)%nat).
          - rewrite !lookup_app_l by lia. reflexivity.
          - rewrite !lookup_app_r by lia.
            destruct (k - length pre)%nat eqn:Ek; [lia|reflexivity]. }
        rewrite (Hk b' b j Hne), (Hk b' b (j - 1)%nat Hne'). reflexivity. }
  pose proof (validarDesde_primera (length (pre ++ b :: post) - 1) (pre ++ b :: post) 1
                ltac:(lia) eq_refl ltac:(intros; lia)) as H.
  unfold validarBlockchain at 2.
  destruct (validarDesde (pre ++ b :: post) _ 1) as [m n|e k|ex] eqn:E.
  - destruct H as [Hn Hnone].
    pose proof (validarDesde_primera (length (pre ++ b' :: post) - 1) (pre ++ b' :: post) 1
                  ltac:(lia) eq_refl ltac:(intros; lia)) as H'.
    unfold validarBlockchain.
    destruct (validarDesde (pre ++ b' :: post) _ 1) as [m' n'|e' k'|ex'] eqn:E'.
    + apply validarDesde_Valida in E as [-> ->].
      apply validarDesde_Valida in E' as [-> ->].
      rewrite !length_app. reflexivity.
    + destruct H' as (Hk' & Hv' & _). rewrite Hver, Hnone in Hv' by lia. discriminate.
    + contradiction.
  - destruct H as (Hk & Hv & Hmin).
    apply (primera_violacion_es _ k); [lia| |].
    + rewrite Hver by lia. exact Hv.
    + intros j Hj. rewrite Hver by lia. apply Hmin. exact Hj.
  - contradiction.
Qed.

End Deteccion.

(** ** Collisions of the block hash *)

Section Colisiones.

Lemma toInt32_multiplo x : exists k, Js.toInt32 x = x + k * 2 ^ 32.
Proof.
  unfold Js.toInt32. exists (- ((x + 2 ^ 31) / 2 ^ 32)).
  rewrite Z.mod_eq by lia. lia.
Qed.

Lemma toInt32_congruente x y :
  (exists k, x = y + k * 2 ^ 32) -> Js.toInt32 x = Js.toInt32 y.
Proof.
  intros [k ->]. unfold Js.toInt32. f_equal.
  replace (y + k * 2 ^ 32 + 2 ^ 31) with (y + 2 ^ 31 + k * 2 ^ 32) by lia.
  apply Z_mod_plus_full.
Qed.

(** One step of the accumulator is [31 * hash + char] wrapped to 32 bits. *)
Lemma sha256Sync_paso_lineal hash char :
  sha256Sync_paso hash char = Js.toInt32 (31 * hash + char).
Proof.
  unfold sha256Sync_paso. rewrite band_diag. apply toInt32_congruente.
  unfold Js.shl. change (5 mod 32) with 5. rewrite Z.shiftl_mul_pow2 by lia.
  destruct (toInt32_multiplo hash) as [k1 ->].
  destruct (toInt32_multiplo ((hash + k1 * 2 ^ 32) * 2 ^ 5)) as [k2 ->].
  exists (k1 * 2 ^ 5 + k2). lia.
Qed.

Lemma sha256Sync_paso_par hash c1 c2 :
  sha256Sync_paso (sha256Sync_paso hash c1) c2 =
  sha256Sync_paso (sha256Sync_paso hash (c1 + 1)) (c2 - 31).
Proof.
  rewrite !sha256Sync_paso_lineal. apply toInt32_congruente.
  destruct (toInt32_multiplo (31 * hash + c1)) as [k1 ->].
  destruct (toInt32_multiplo (31 * hash + (c1 + 1))) as [k2 ->].
  exists (31 * (k1 - k2)). lia.
Qed.

Lemma fold_left_dos {A B : Type} (f : A -> B -> A) x y l a :
  fold_left f (x :: y :: l) a = fold_left f l (f (f a x) y).
Proof. reflexivity. Qed.

(** X3: [sha256Sync] does not tell two strings apart that differ in one
    pair of neighbouring characters [c1 c2] replaced by [c1 + 1] and
    [c2 - 31] (as [Aa] by [BB]), wherever the pair stands. *)
Theorem sha256Sync_sustitucion (p q : Js.cadena) (c1 c2 : Z) :
  sha256Sync (p ++ c1 :: c2 :: q) = sha256Sync (p ++ (c1 + 1) :: (c2 - 31) :: q).
Proof.
  assert (sha256Sync_acumulador (p ++ c1 :: c2 :: q)
          = sha256Sync_acumulador (p ++ (c1 + 1) :: (c2 - 31) :: q)) as E.
  { unfold sha256Sync_acumulador. rewrite !fold_left_app.
    rewrite !fold_left_dos, sha256Sync_paso_par. reflexivity. }
  unfold sha256Sync. rewrite E. reflexivity.
Qed.

(** *** The pair inside a string of the payload *)

Lemma escapar_llano c : es_llano c -> JSON.escapar c = [c].
Proof.
  intros (H32 & H34 & H92 & Hs). unfold JSON.escapar.
  repeat (match goal with
          | |- context [?x =? ?y] => destruct (Z.eqb_spec x y); [lia|]
          end).
  unfold JSON.es_sustituto_alto, JSON.es_sustituto_bajo.
  destruct (Z.ltb_spec c 32); [lia|].
  destruct (Z.leb_spec 55296 c), (Z.leb_spec c 56319), (Z.leb_spec 56320 c),
    (Z.leb_spec c 57343); simpl; try reflexivity; lia.
Qed.

Lemma llano_no_sustituto c :
  es_llano c -> JSON.es_sustituto_alto c = false /\ JSON.es_sustituto_bajo c = false.
Proof.
  intros (_ & _ & _ & Hs). unfold JSON.es_sustituto_alto, JSON.es_sustituto_bajo.
  destruct (Z.leb_spec 55296 c), (Z.leb_spec c 56319), (Z.leb_spec 56320 c),
    (Z.leb_spec c 57343); simpl; split; try reflexivity; lia.
Qed.

Lemma escaparCadena_cons a s :
  JSON.escaparCadena (a :: s) =
  if JSON.es_sustituto_alto a then
    match s with
    | d :: s'' =>
        if JSON.es_sustituto_bajo d then a :: d :: JSON.escaparCadena s''
        else JSON.escapar a ++ JSON.escaparCadena s
    | [] => JSON.escapar a
    end
  else JSON.escapar a ++ JSON.escaparCadena s.
Proof. reflexivity. Qed.

Lemma escaparCadena_app (n : nat) : forall p c r,
  (length p <= n)%nat -> JSON.es_sustituto_bajo c = false ->
  JSON.escaparCadena (p ++ c :: r) = JSON.escaparCadena p ++ JSON.escaparCadena (c :: r).
Proof.
  induction n as [|n IH]; intros p c r Hlen Hc.
  - destruct p; [reflexivity|simpl in Hlen; lia].
  - destruct p as [|a p]; [reflexivity|].
    simpl in Hlen.
    rewrite <- app_comm_cons.
    rewrite (escaparCadena_cons a (p ++ c :: r)), (escaparCadena_cons a p).
    destruct (JSON.es_sustituto_alto a).
    + destruct p as [|d p].
      * rewrite app_nil_l, Hc. reflexivity.
      * rewrite <- app_comm_cons. cbv beta iota. simpl in Hlen.
        destruct (JSON.es_sustituto_bajo d).
        -- rewrite (IH p c r ltac:(lia) Hc). reflexivity.
        -- rewrite app_comm_cons, (IH (d :: p) c r ltac:(simpl; lia) Hc).
           rewrite app_assoc. reflexivity.
    + rewrite (IH p c r ltac:(lia) Hc), app_assoc. reflexivity.
Qed.

Lemma escaparCadena_par p c1 c2 q :
  es_llano c1 -> es_llano c2 ->
  JSON.escaparCadena (p ++ c1 :: c2 :: q) =
  JSON.escaparCadena p ++ c1 :: c2 :: JSON.escaparCadena q.
Proof.
  intros H1 H2.
  destruct (llano_no_sustituto c1 H1) as [Ha1 Hb1].
  destruct (llano_no_sustituto c2 H2) as [Ha2 Hb2].
  rewrite (escaparCadena_app (length p) p c1 (c2 :: q) ltac:(lia) Hb1).
  f_equal.
  rewrite (escaparCadena_cons c1), Ha1, (escapar_llano c1 H1).
  rewrite (escaparCadena_cons c2), Ha2, (escapar_llano c2 H2).
  reflexivity.
Qed.

End Colisiones.
